(** * bot4: a contact book with validated fields, records and a paged,
      persistent address book.

    Shallow embedding of [bot4.py] and the properties of its
    specification.  Python objects are records, attribute assignment is
    explicit state passing, and a raised exception is a [Raise] result
    that leaves the state reached so far. *)

From Stdlib Require Import ZArith NArith String Ascii List Bool Lia DecimalString.
From stdpp Require Import base tactics option list strings gmap.

Local Open Scope string_scope.
Local Open Scope Z_scope.

(** ** Python strings

    A [string] is a sequence of code points below 256, the Latin-1 block
    of Python's [str]: [len] counts characters, and the character
    predicates below are the Unicode ones restricted to that block. *)
Module PyStr.

Definition code (c : ascii) : N := N_of_ascii c.

(** [str.isdigit] on one character: the ASCII digits and the three
    superscript digits U+00B2, U+00B3 and U+00B9. *)
Definition isdigit_char (c : ascii) : bool :=
  let n := code c in
  ((48 <=? n) && (n <=? 57) || (n =? 178) || (n =? 179) || (n =? 185))%N.

(** [str.isdecimal] on one character: only 0..9 in this block. *)
Definition isdecimal_char (c : ascii) : bool :=
  let n := code c in ((48 <=? n) && (n <=? 57))%N.

Fixpoint all_chars (p : ascii -> bool) (s : string) : bool :=
  match s with
  | EmptyString => true
  | String c s' => p c && all_chars p s'
  end.

(** [s.isdigit()]: every character is a digit and there is at least one. *)
Definition isdigit (s : string) : bool :=
  match s with
  | EmptyString => false
  | _ => all_chars isdigit_char s
  end.

Definition isdecimal (s : string) : bool :=
  match s with
  | EmptyString => false
  | _ => all_chars isdecimal_char s
  end.

Definition len (s : string) : Z := Z.of_nat (String.length s).

(** [str.lower] on one character: A..Z and the accented capitals
    U+00C0..U+00DE (the multiplication sign U+00D7 apart) move up by 32. *)
Definition lower_char (c : ascii) : ascii :=
  let n := code c in
  if ((65 <=? n) && (n <=? 90) ||
      (192 <=? n) && (n <=? 222) && negb (n =? 215))%N
  then ascii_of_N (n + 32) else c.

(** [s.lower()] on a string of the block, where it is letter by letter;
    [Wide.lower] below has the strings with a capital sigma, where it is
    not. *)
Fixpoint lower (s : string) : string :=
  match s with
  | EmptyString => EmptyString
  | String c s' => String (lower_char c) (lower s')
  end.

Fixpoint startswith (p s : string) : bool :=
  match p, s with
  | EmptyString, _ => true
  | String a p', String b s' => Ascii.eqb a b && startswith p' s'
  | String _ _, EmptyString => false
  end.

(** [sub in s]: [sub] occurs in [s] at some position. *)
Fixpoint contains (sub s : string) : bool :=
  startswith sub s ||
  match s with
  | EmptyString => false
  | String _ s' => contains sub s'
  end.

(** Truth value of a string: non-empty. *)
Definition nonempty (s : string) : bool :=
  match s with EmptyString => false | _ => true end.

End PyStr.

(** ** Calendar dates, after CPython's [datetime.date] *)
Module Date.

Record date := mkdate { year : Z; month : Z; day : Z }.

Definition MINYEAR : Z := 1.
Definition MAXYEAR : Z := 9999.

Definition is_leap (y : Z) : bool :=
  (y mod 4 =? 0) && (negb (y mod 100 =? 0) || (y mod 400 =? 0)).

Definition days_in_month (y m : Z) : Z :=
  if m =? 2 then (if is_leap y then 29 else 28)
  else if (m =? 4) || (m =? 6) || (m =? 9) || (m =? 11) then 30
  else 31.

(** Days in the year before the first day of month [m]. *)
Definition days_before_month (y m : Z) : Z :=
  let leap := if is_leap y then 1 else 0 in
  if m <=? 1 then 0
  else if m =? 2 then 31
  else if m =? 3 then 59 + leap
  else if m =? 4 then 90 + leap
  else if m =? 5 then 120 + leap
  else if m =? 6 then 151 + leap
  else if m =? 7 then 181 + leap
  else if m =? 8 then 212 + leap
  else if m =? 9 then 243 + leap
  else if m =? 10 then 273 + leap
  else if m =? 11 then 304 + leap
  else 334 + leap.

(** Days before January 1st of year [y]. *)
Definition days_before_year (y : Z) : Z :=
  let p := y - 1 in p * 365 + p / 4 - p / 100 + p / 400.

(** [date.toordinal]: January 1st of year 1 is day 1. *)
Definition toordinal (d : date) : Z :=
  days_before_year (year d) + days_before_month (year d) (month d) + day d.

Definition valid (y m d : Z) : bool :=
  (MINYEAR <=? y) && (y <=? MAXYEAR) &&
  (1 <=? m) && (m <=? 12) &&
  (1 <=? d) && (d <=? days_in_month y m).

(** [a > b] on dates compares (year, month, day) lexicographically. *)
Definition gt (a b : date) : bool :=
  (year b <? year a) ||
  (year a =? year b) &&
    ((month b <? month a) || (month a =? month b) && (day b <? day a)).

(** [(a - b).days] *)
Definition sub_days (a b : date) : Z := toordinal a - toordinal b.

Definition digit (n : Z) : ascii := ascii_of_N (48 + Z.to_N (n mod 10)).

(** [date.isoformat], the rendering [str] gives: [YYYY-MM-DD]. *)
Definition isoformat (d : date) : string :=
  let y := year d in let m := month d in let n := day d in
  String (digit (y / 1000)) (String (digit (y / 100)) (String (digit (y / 10))
  (String (digit y) (String "-" (String (digit (m / 10)) (String (digit m)
  (String "-" (String (digit (n / 10)) (String (digit n) EmptyString))))))))).

End Date.
Export Date(date, mkdate).

(** Case analysis on a month number known to lie in 1..12. *)
Ltac each_month m :=
  let H := fresh "Hmonth" in
  assert (H : m = 1 \/ m = 2 \/ m = 3 \/ m = 4 \/ m = 5 \/ m = 6 \/
              m = 7 \/ m = 8 \/ m = 9 \/ m = 10 \/ m = 11 \/ m = 12) by lia;
  destruct H as [->|[->|[->|[->|[->|[->|[->|[->|[->|[->|[->| ->]]]]]]]]]]].

(** ** Values, exceptions and the state-and-exception monad *)

(** The Python values the program stores in a field. *)
Inductive value :=
| VNone
| VStr (s : string)
| VDate (d : date).

Inductive exn :=
| ValueError (msg : string)
| AttributeError
| TypeError
| StopIteration
| KeyError
| FileNotFoundError
| OSError
| UnpicklingError.

Inductive result (A : Type) :=
| Ok (a : A)
| Raise (e : exn).
Arguments Ok {A} a.
Arguments Raise {A} e.

(** A method of an object of state [S]: it returns or raises, and leaves
    the object in the state it had reached. *)
Definition M (S A : Type) : Type := S -> result A * S.

Definition ret {S A} (a : A) : M S A := fun s => (Ok a, s).
Definition raise {S A} (e : exn) : M S A := fun s => (Raise e, s).
Definition bind {S A B} (m : M S A) (k : A -> M S B) : M S B :=
  fun s => match m s with
           | (Ok a, s') => k a s'
           | (Raise e, s') => (Raise e, s')
           end.
Definition get {S} : M S S := fun s => (Ok s, s).
Definition put {S} (s : S) : M S unit := fun _ => (Ok tt, s).
(** A computation that may raise but has no state of its own. *)
Definition lift {S A} (r : result A) : M S A := fun s => (r, s).

Declare Scope py_scope.
Delimit Scope py_scope with py.
Notation "x <- m ;; k" := (bind m (fun x => k))
  (at level 100, m at next level, right associativity) : py_scope.
Notation "m ;;; k" := (bind m (fun _ => k))
  (at level 100, right associativity) : py_scope.

(** [str(v)] *)
Definition str (v : value) : string :=
  match v with
  | VNone => "None"
  | VStr s => s
  | VDate d => Date.isoformat d
  end.

(** Truth value of [v], as [if v:] tests it. *)
Definition truthy (v : value) : bool :=
  match v with
  | VNone => false
  | VStr s => PyStr.nonempty s
  | VDate _ => true
  end.

Definition value_eqb (a b : value) : bool :=
  match a, b with
  | VNone, VNone => true
  | VStr s, VStr t => String.eqb s t
  | VDate d, VDate e =>
      (Date.year d =? Date.year e) && (Date.month d =? Date.month e) &&
      (Date.day d =? Date.day e)
  | _, _ => false
  end.

Definition new_date (y m d : Z) : result date :=
  if Date.valid y m d then Ok (mkdate y m d)
  else Raise (ValueError "date value out of range").

(** Attribute access [v.month] and [v.day]: only a date has them. *)
Definition getattr_month (v : value) : result Z :=
  match v with VDate d => Ok (Date.month d) | _ => Raise AttributeError end.
Definition getattr_day (v : value) : result Z :=
  match v with VDate d => Ok (Date.day d) | _ => Raise AttributeError end.

(** ** Fields *)

(** A [Field] object: its one attribute. *)
Record Field := mkField { _value : value }.

(** A subclass of [Field] is its [validate] hook. *)
Record FieldClass := { validate : value -> result unit }.

(** [Field.__init__]: stores the value, [validate] is not called. *)
Definition Field_init (value : value) : result Field :=
  Ok {| _value := value |}.

(** [Field.__str__] *)
Definition Field_str (self : Field) : string := str (_value self).

Definition get_value (self : Field) : value := _value self.

(** [Field.set_value]: the hook runs first; when it raises, the
    assignment is not reached. *)
Definition set_value (C : FieldClass) (new_value : value) : M Field unit :=
  (lift (validate C new_value) ;;;
   put {| _value := new_value |})%py.

(** [Field.validate]: [pass]. *)
Definition Field_validate (value : value) : result unit := Ok tt.

Definition Name : FieldClass := {| validate := Field_validate |}.

(** [Name(value)] *)
Definition Name_init (value : value) : result Field := Field_init value.

(** [Phone.validate] *)
Definition Phone_validate (value : value) : result unit :=
  match value with
  | VNone => Ok tt
  | VDate _ => Raise (ValueError "Phone must be a string")
  | VStr s =>
      if negb (PyStr.isdigit s) then
        Raise (ValueError "Phone must contain only digits")
      else if negb (PyStr.len s =? 10) then
        Raise (ValueError "Phone must be 10 digits long")
      else Ok tt
  end.

Definition Phone : FieldClass := {| validate := Phone_validate |}.

(** [Phone.__init__]: [super().__init__(value)]. *)
Definition Phone_init (value : value) : result Field := Field_init value.

Section Birthday.

(** [datetime.datetime.strptime(s, fmt)] of the standard library;
    [None] stands for its [ValueError]. *)
Variable strptime : string -> string -> option date.

(** [Birthday.validate]: [strptime] of anything but a string is a
    [TypeError], which the [except ValueError] does not catch. *)
Definition Birthday_validate (value : value) : result unit :=
  match value with
  | VNone => Ok tt
  | VStr s =>
      match strptime s "%Y-%m-%d" with
      | Some _ => Ok tt
      | None => Raise (ValueError "Invalid date format. Use 'YYYY-MM-DD'")
      end
  | VDate _ => Raise TypeError
  end.

Definition Birthday : FieldClass := {| validate := Birthday_validate |}.

End Birthday.

(** [Birthday.__init__]: [super().__init__(value)]. *)
Definition Birthday_init (value : value) : result Field := Field_init value.

(** ** Records *)

Record record := mkRecord {
  name : Field;
  phones : list Field;
  birthday : Field
}.

Definition set_phones (ps : list Field) (self : record) : record :=
  {| name := name self; phones := ps; birthday := birthday self |}.

(** [Record.add_phone] *)
Definition add_phone (phone : value) : M record unit :=
  (phone_field <- lift (Phone_init phone) ;;
   self <- get ;;
   put (set_phones (phones self ++ [phone_field]) self))%py.

(** [Record.remove_phone]: keeps the entries with [str(p) != phone]. *)
Definition remove_phone (phone : string) : M record unit :=
  (self <- get ;;
   put (set_phones
          (List.filter (fun p => negb (String.eqb (Field_str p) phone))
                       (phones self)) self))%py.

(** The loop of [Record.edit_phone] over the entries not yet visited:
    an entry is updated in place; when [set_value] raises the loop
    stops, the entries after it are not visited. *)
Fixpoint edit_phone_loop (old_phone : string) (new_phone : value)
    (ps : list Field) : result unit * list Field :=
  match ps with
  | [] => (Ok tt, [])
  | phone :: rest =>
      if String.eqb (Field_str phone) old_phone then
        match set_value Phone new_phone phone with
        | (Ok _, phone') =>
            let (r, rest') := edit_phone_loop old_phone new_phone rest in
            (r, phone' :: rest')
        | (Raise e, phone') => (Raise e, phone' :: rest)
        end
      else
        let (r, rest') := edit_phone_loop old_phone new_phone rest in
        (r, phone :: rest')
  end.

(** [Record.edit_phone] *)
Definition edit_phone (old_phone : string) (new_phone : value) : M record unit :=
  fun self =>
    let (r, ps) := edit_phone_loop old_phone new_phone (phones self) in
    (r, set_phones ps self).

(** [Record.days_to_birthday], with [datetime.date.today()] as [today]. *)
Definition days_to_birthday (today : date) : M record (option Z) :=
  (self <- get ;;
   let v := _value (birthday self) in
   if truthy v then
     m <- lift (getattr_month v) ;;
     d <- lift (getattr_day v) ;;
     next_birthday <- lift (new_date (Date.year today) m d) ;;
     next_birthday <-
       (if Date.gt today next_birthday
        then lift (new_date (Date.year today + 1) m d)
        else ret next_birthday) ;;
     ret (Some (Date.sub_days next_birthday today))
   else ret None)%py.

(** [Record.__init__] *)
Definition Record_init (name phone birthday : value) : result record :=
  match Name_init name, Birthday_init birthday with
  | Ok n, Ok b =>
      let self := {| name := n; phones := []; birthday := b |} in
      if truthy phone then
        match add_phone phone self with
        | (Ok _, self') => Ok self'
        | (Raise e, _) => Raise e
        end
      else Ok self
  | Raise e, _ => Raise e
  | _, Raise e => Raise e
  end.

(** [Record.__str__] *)
Definition Record_str (self : record) : string :=
  let phones_str := String.concat ", " (map Field_str (phones self)) in
  let birthday_str :=
    if truthy (_value (birthday self)) then str (_value (birthday self))
    else "N/A" in
  "Name: " ++ Field_str (name self) ++ ", Phones: " ++ phones_str ++
  ", Birthday: " ++ birthday_str.

(** ** The address book *)

(** A Python [dict]: the keys are unique and kept in insertion order;
    assigning to a key that is present replaces its value in place. *)
Definition dict := list (value * record).

Fixpoint dict_get (k : value) (d : dict) : option record :=
  match d with
  | [] => None
  | (k', v) :: d' => if value_eqb k' k then Some v else dict_get k d'
  end.

(** [d[k] = v] *)
Fixpoint dict_set (k : value) (v : record) (d : dict) : dict :=
  match d with
  | [] => [(k, v)]
  | (k', v') :: d' =>
      if value_eqb k' k then (k', v) :: d' else (k', v') :: dict_set k v d'
  end.

(** [del d[k]] *)
Fixpoint dict_del (k : value) (d : dict) : dict :=
  match d with
  | [] => []
  | (k', v') :: d' =>
      if value_eqb k' k then d' else (k', v') :: dict_del k d'
  end.

(** [k in d] *)
Definition dict_mem (k : value) (d : dict) : bool :=
  match dict_get k d with Some _ => true | None => false end.

Definition dict_keys (d : dict) : list value := map fst d.
Definition dict_values (d : dict) : list record := map snd d.

(** [d[k]], a [KeyError] when the key is missing. *)
Definition dict_getitem (k : value) (d : dict) : result record :=
  match dict_get k d with Some v => Ok v | None => Raise KeyError end.

(** The attributes [__iter__] creates on the book. *)
Record IterState := mkIter {
  _iter_index : nat;
  _page_size : nat;
  _keys : list value
}.

(** An [AddressBook] object; [iter_state] is [None] until [__iter__]
    has created its three attributes. *)
Record AddressBook := mkBook {
  data : dict;
  iter_state : option IterState
}.

Definition set_data (d : dict) (self : AddressBook) : AddressBook :=
  {| data := d; iter_state := iter_state self |}.

(** [AddressBook.__init__] *)
Definition AddressBook_init : AddressBook := {| data := []; iter_state := None |}.

(** [AddressBook.add_record] *)
Definition add_record (r : record) : M AddressBook unit :=
  (self <- get ;;
   put (set_data (dict_set (get_value (name r)) r (data self)) self))%py.

(** [AddressBook.remove_record] *)
Definition remove_record (name : value) : M AddressBook unit :=
  (self <- get ;;
   if dict_mem name (data self)
   then put (set_data (dict_del name (data self)) self)
   else ret tt)%py.

(** A list comprehension [[x for x in l if cond(x)]] whose condition
    may raise: the first exception ends it. *)
Fixpoint comprehension {A} (cond : A -> result bool) (l : list A)
  : result (list A) :=
  match l with
  | [] => Ok []
  | x :: l' =>
      match cond x with
      | Raise e => Raise e
      | Ok b =>
          match comprehension cond l' with
          | Raise e => Raise e
          | Ok out => Ok (if b then x :: out else out)
          end
      end
  end.

(** [v.lower()]: only a string has the method. *)
Definition value_lower (v : value) : result string :=
  match v with
  | VStr s => Ok (PyStr.lower s)
  | _ => Raise AttributeError
  end.

(** The condition of [find_records_by_name]:
    [name.lower() in record.name.get_value().lower()]. *)
Definition name_matches (query : string) (r : record) : result bool :=
  match value_lower (get_value (name r)) with
  | Ok n => Ok (PyStr.contains (PyStr.lower query) n)
  | Raise e => Raise e
  end.

(** [AddressBook.find_records_by_name] *)
Definition find_records_by_name (name : string) : M AddressBook (list record) :=
  (self <- get ;;
   lift (comprehension (name_matches name) (dict_values (data self))))%py.

(** The condition of [find_records_by_phone]:
    [any(phone in str(p) for p in record.phones)]. *)
Definition phone_matches (query : string) (r : record) : bool :=
  existsb (fun p => PyStr.contains query (Field_str p)) (phones r).

(** [AddressBook.find_records_by_phone] *)
Definition find_records_by_phone (phone : string) : M AddressBook (list record) :=
  (self <- get ;;
   ret (List.filter (phone_matches phone) (dict_values (data self))))%py.

(** [[self.data[key] for key in keys_slice]] *)
Fixpoint lookup_all (d : dict) (ks : list value) : result (list record) :=
  match ks with
  | [] => Ok []
  | k :: ks' =>
      match dict_getitem k d with
      | Raise e => Raise e
      | Ok r =>
          match lookup_all d ks' with
          | Raise e => Raise e
          | Ok rs => Ok (r :: rs)
          end
      end
  end.

(** [AddressBook.__iter__]: resets the cursor on the book itself and
    returns the book. *)
Definition __iter__ : M AddressBook unit :=
  (self <- get ;;
   put {| data := data self;
          iter_state := Some {| _iter_index := 0%nat; _page_size := 5%nat;
                                _keys := dict_keys (data self) |} |})%py.

(** [AddressBook.__next__]; the slice [keys[i:i+n]] is
    [take n (drop i keys)]. *)
Definition __next__ : M AddressBook (list record) :=
  (self <- get ;;
   match iter_state self with
   | None => raise AttributeError
   | Some it =>
       if (length (_keys it) <=? _iter_index it)%nat then raise StopIteration
       else
         let keys_slice := take (_page_size it) (drop (_iter_index it) (_keys it)) in
         records <- lift (lookup_all (data self) keys_slice) ;;
         put {| data := data self;
                iter_state := Some {| _iter_index := (_iter_index it + _page_size it)%nat;
                                      _page_size := _page_size it;
                                      _keys := _keys it |} |} ;;;
         ret records
   end)%py.

(** The loop [for records in it:] collecting the pages it is given:
    [__next__] is called until it raises [StopIteration].  [None] when
    [fuel] calls were not enough. *)
Fixpoint for_pages (fuel : nat) (self : AddressBook)
  : option (result (list (list record)) * AddressBook) :=
  match fuel with
  | O => None
  | S fuel' =>
      match __next__ self with
      | (Raise StopIteration, self') => Some (Ok [], self')
      | (Raise e, self') => Some (Raise e, self')
      | (Ok records, self') =>
          match for_pages fuel' self' with
          | None => None
          | Some (Ok pages, self'') => Some (Ok (records :: pages), self'')
          | Some (Raise e, self'') => Some (Raise e, self'')
          end
      end
  end.

(** [for records in address_book:], the listing of the [show all]
    command: [iter(address_book)] first, then the loop. *)
Definition paginate (fuel : nat) (self : AddressBook)
  : option (result (list (list record)) * AddressBook) :=
  match __iter__ self with
  | (Ok _, self') => for_pages fuel self'
  | (Raise e, self') => Some (Raise e, self')
  end.

(** ** Persistence *)
Section Persistence.

(** The bytes [pickle] writes, and [pickle.dump] and [pickle.load] of
    the standard library on the book's dictionary; [None] stands for
    the error [pickle.load] raises on bytes it cannot read. *)
Variable Blob : Type.
Variable pickle_dumps : dict -> Blob.
Variable pickle_loads : Blob -> option dict.

(** The files, and the paths [open(_, 'wb')] can open. *)
Record FileSystem := mkFS {
  files : gmap string Blob;
  writable : string -> bool
}.

(** [AddressBook.save_to_file]: [open] raises before anything is
    written; otherwise the file holds exactly the dump. *)
Definition save_to_file (filename : string) : M (AddressBook * FileSystem) unit :=
  (st <- get ;;
   let '(self, fs) := st in
   if writable fs filename then
     put (self, {| files := <[filename := pickle_dumps (data self)]> (files fs);
                   writable := writable fs |})
   else raise OSError)%py.

(** [open(filename, 'rb')] followed by [pickle.load(file)]. *)
Definition read_pickle (filename : string) (fs : FileSystem) : result dict :=
  match files fs !! filename with
  | None => Raise FileNotFoundError
  | Some blob =>
      match pickle_loads blob with
      | Some d => Ok d
      | None => Raise UnpicklingError
      end
  end.

(** [AddressBook.load_from_file]: [FileNotFoundError] is caught and
    gives an empty dictionary; any other exception propagates. *)
Definition load_from_file (filename : string) : M (AddressBook * FileSystem) unit :=
  (st <- get ;;
   let '(self, fs) := st in
   match read_pickle filename fs with
   | Ok d => put (set_data d self, fs)
   | Raise FileNotFoundError => put (set_data [] self, fs)
   | Raise e => raise e
   end)%py.

End Persistence.
Arguments files {Blob} _.
Arguments writable {Blob} _ _.
Arguments mkFS {Blob} _ _.

(** ** Predicates of the specification *)

(** The condition [Phone.validate] puts on a string. *)
Definition phone_accepted (s : string) : bool :=
  PyStr.isdigit s && (String.length s =? 10)%nat.

(** A string of exactly ten decimal digits [0]..[9]. *)
Definition ten_decimal_digits (s : string) : bool :=
  PyStr.isdecimal s && (String.length s =? 10)%nat.

(** The stored value is absent or passes the subclass's [validate]. *)
Definition field_ok (C : FieldClass) (f : Field) : Prop :=
  _value f = VNone \/ validate C (_value f) = Ok tt.

(** [q] occurs in [s]. *)
Definition substring (q s : string) : Prop :=
  exists pre post, s = pre +:+ q +:+ post.

(** Every record of the book is named by a string. *)
Definition names_are_strings (b : AddressBook) : Prop :=
  Forall (fun r => exists s, get_value (name r) = VStr s) (dict_values (data b)).

Definition has_phone (r : record) : bool :=
  match phones r with [] => false | _ :: _ => true end.

(** The books and records of the scenarios. *)
Definition superscript_two : ascii := ascii_of_N 178.
Definition phone_with_superscript : string :=
  "123456789" +:+ String superscript_two "".

Definition bob_with (phone : string) : record :=
  {| name := {| _value := VStr "Bob" |};
     phones := [{| _value := VStr phone |}];
     birthday := {| _value := VNone |} |}.

Definition alice : record :=
  {| name := {| _value := VStr "Alice" |};
     phones := [{| _value := VStr "5551234567" |}];
     birthday := {| _value := VStr "1990-05-10" |} |}.

Definition carol_no_phone : record :=
  {| name := {| _value := VStr "Carol" |};
     phones := [];
     birthday := {| _value := VNone |} |}.

Definition small_book : AddressBook :=
  {| data := [(VStr "Alice", alice); (VStr "Carol", carol_no_phone)];
     iter_state := None |}.

(** [paged n l pages]: [pages] cuts [l] into successive slices of [n]
    elements, the last one holding what is left. *)
Inductive paged {A} (n : nat) : list A -> list (list A) -> Prop :=
| paged_done : paged n [] []
| paged_more l pages :
    l <> [] -> paged n (drop n l) pages -> paged n l (take n l :: pages).

Definition unlisted (n : string) : record :=
  {| name := {| _value := VStr n |}; phones := [];
     birthday := {| _value := VNone |} |}.

(** A book of twelve records under twelve names. *)
Definition book_of_twelve : AddressBook :=
  {| data := map (fun n => (VStr n, unlisted n))
               ["Ann"; "Bob"; "Cid"; "Dan"; "Eve"; "Fay";
                "Gus"; "Hal"; "Ida"; "Jon"; "Kim"; "Lea"];
     iter_state := None |}.

(** The book with dictionary [d] while it is being listed: the cursor
    at index [i], pages of [n] keys. *)
Definition cursor (d : dict) (i n : nat) : AddressBook :=
  {| data := d;
     iter_state := Some {| _iter_index := i; _page_size := n; _keys := dict_keys d |} |}.

(** What the specification compares two books by: for each record, in
    key order, its name, its phones and its birthday. *)
Definition tuples (b : AddressBook) : list (value * list value * value) :=
  map (fun r => (get_value (name r), map get_value (phones r),
                 get_value (birthday r)))
      (dict_values (data b)).

(** A file system with no file, where every path can be written. *)
Definition empty_disk {Blob} : FileSystem Blob :=
  {| files := ∅; writable := fun _ => true |}.

(** ** The property setters and runs of assignments *)

(** [Phone.value]'s setter: [self.set_value(new_value)]. *)
Definition Phone_value_setter (new_value : value) : M Field unit :=
  set_value Phone new_value.

(** [Birthday.value]'s setter: [self.set_value(new_value)]. *)
Definition Birthday_value_setter (strptime : string -> string -> option date)
    (new_value : value) : M Field unit :=
  set_value (Birthday strptime) new_value.

(** The assignments [f.set_value(v)] for [v] in [vs], one after the
    other, each exception caught by the caller. *)
Fixpoint assign_all (C : FieldClass) (vs : list value) (f : Field) : Field :=
  match vs with
  | [] => f
  | v :: vs' => assign_all C vs' (snd (set_value C v f))
  end.

(** The value a run of assignments leaves: the last one [validate]
    accepted, or the value before the run. *)
Fixpoint last_accepted (C : FieldClass) (vs : list value) (before : value) : value :=
  match vs with
  | [] => before
  | v :: vs' =>
      last_accepted C vs'
        (match validate C v with Ok _ => v | Raise _ => before end)
  end.

Definition is_ok {A} (r : result A) : bool :=
  match r with Ok _ => true | Raise _ => false end.

(** A book with dictionary [d] whose listing was started on the keys
    [ks]: the cursor at index [i], pages of [n] keys. *)
Definition listing (d : dict) (i n : nat) (ks : list value) : AddressBook :=
  {| data := d;
     iter_state := Some {| _iter_index := i; _page_size := n; _keys := ks |} |}.

Definition nameless : record :=
  {| name := {| _value := VNone |}; phones := [];
     birthday := {| _value := VNone |} |}.

(** ** The command loop *)

(** [str.isspace] on one character of the block. *)
Definition isspace_char (c : ascii) : bool :=
  let n := PyStr.code c in
  ((9 <=? n) && (n <=? 13) || (28 <=? n) && (n <=? 32) || (n =? 133) || (n =? 160))%N.

Fixpoint lstrip (s : string) : string :=
  match s with
  | EmptyString => EmptyString
  | String c s' => if isspace_char c then lstrip s' else s
  end.

Fixpoint rstrip (s : string) : string :=
  match s with
  | EmptyString => EmptyString
  | String c s' =>
      match rstrip s' with
      | EmptyString => if isspace_char c then EmptyString else String c EmptyString
      | t => String c t
      end
  end.

(** [s.strip()] *)
Definition strip (s : string) : string := rstrip (lstrip s).

(** What the program writes: the prompt of an [input] call, or a
    printed line. *)
Inductive event :=
| Prompt (text : string)
| Print (line : string).

(** How a run ends: the loop is left by [exit], an exception escapes,
    or [input] finds no more input ([EOFError], which nothing catches). *)
Inductive ending :=
| Finished
| Uncaught (e : exn)
| UncaughtEOF.

(** [f"Page {page}:"] *)
Definition page_header (page : nat) : string :=
  "Page " +:+ NilZero.string_of_uint (Nat.to_uint page) +:+ ":".

(** [for record in records: print(record)] *)
Definition print_records (records : list record) : list event :=
  map (fun r => Print (Record_str r)) records.

(** The report of a search: the records found, or one line when the
    list is empty. *)
Definition report (found_records : list record) : list event :=
  match found_records with
  | [] => [Print "No matching records found."]
  | _ :: _ => print_records found_records
  end.

Section Program.

Variable Blob : Type.
Variable pickle_dumps : dict -> Blob.
Variable pickle_loads : Blob -> option dict.

(** The state of a run: the book, the files, and what was written to
    the terminal so far. *)
Record Session := mkSession {
  book : AddressBook;
  disk : FileSystem Blob;
  screen : list event
}.

Definition emit (evs : list event) (s : Session) : Session :=
  {| book := book s; disk := disk s; screen := screen s ++ evs |}.

Definition with_book (b : AddressBook) (s : Session) : Session :=
  {| book := b; disk := disk s; screen := screen s |}.

(** The body of [for page, records in enumerate(address_book, start=1)],
    [__next__] being called until it raises [StopIteration]; [None] when
    [fuel] calls were not enough. *)
Fixpoint show_pages (fuel page : nat) (s : Session)
  : option (result unit * Session) :=
  match fuel with
  | O => None
  | S fuel' =>
      match __next__ (book s) with
      | (Raise StopIteration, b) => Some (Ok tt, with_book b s)
      | (Raise e, b) => Some (Raise e, with_book b s)
      | (Ok records, b) =>
          let more_pages := (page * 5 <? length (data b))%nat in
          show_pages fuel' (S page)
            (emit ([Print (page_header page)] ++ print_records records ++
                   (if more_pages
                    then [Print "More pages available. Type 'next' to see more."]
                    else []))
                  (with_book b s))
      end
  end.

(** The [show all] command: [enumerate] calls [iter(address_book)],
    then the loop runs; one call of [__next__] per record and one more
    are allowed. *)
Definition show_all (s : Session) : option (result unit * Session) :=
  match __iter__ (book s) with
  | (Ok _, b) => show_pages (S (length (data b))) 1 (with_book b s)
  | (Raise e, b) => Some (Raise e, with_book b s)
  end.

(** The [while True:] loop of the program on the lines [stdin] still
    to be read, and, within the [add] command, the loop that reads the
    phones of [new_record]. *)
Fixpoint command_loop (stdin : list string) (s : Session) {struct stdin}
  : option (ending * Session) :=
  match stdin with
  | [] => Some (UncaughtEOF, emit [Prompt "Enter a command: "] s)
  | line :: rest =>
    let s := emit [Prompt "Enter a command: "] s in
    let command := PyStr.lower (strip line) in
    if String.eqb command "exit" then
      match save_to_file Blob pickle_dumps "address_book.pkl" (book s, disk s) with
      | (Ok _, (b, fs)) =>
          Some (Finished, {| book := b; disk := fs; screen := screen s |})
      | (Raise e, (b, fs)) =>
          Some (Uncaught e, {| book := b; disk := fs; screen := screen s |})
      end
    else if String.eqb command "add" then
      let s := emit [Prompt "Enter a name: "] s in
      match rest with
      | [] => Some (UncaughtEOF, s)
      | name :: rest =>
        let s := emit [Prompt "Enter a birthday (optional, format YYYY-MM-DD): "] s in
        match rest with
        | [] => Some (UncaughtEOF, s)
        | birthday :: rest =>
          match Record_init (VStr name) VNone (VStr birthday) with
          | Raise e => Some (Uncaught e, s)
          | Ok new_record => phone_loop rest new_record s
          end
        end
      end
    else if String.eqb command "remove" then
      let s := emit [Prompt "Enter a name to remove: "] s in
      match rest with
      | [] => Some (UncaughtEOF, s)
      | name :: rest => command_loop rest s
      end
    else if String.eqb command "find by name" then
      let s := emit [Prompt "Enter a name to find: "] s in
      match rest with
      | [] => Some (UncaughtEOF, s)
      | name :: rest =>
        match find_records_by_name (strip name) (book s) with
        | (Raise e, b) => Some (Uncaught e, with_book b s)
        | (Ok found_records, b) =>
            command_loop rest (emit (report found_records) (with_book b s))
        end
      end
    else if String.eqb command "find by phone" then
      let s := emit [Prompt "Enter a phone to find: "] s in
      match rest with
      | [] => Some (UncaughtEOF, s)
      | phone :: rest =>
        match find_records_by_phone (strip phone) (book s) with
        | (Raise e, b) => Some (Uncaught e, with_book b s)
        | (Ok found_records, b) =>
            command_loop rest (emit (report found_records) (with_book b s))
        end
      end
    else if String.eqb command "show all" then
      match show_all s with
      | None => None
      | Some (Raise e, s) => Some (Uncaught e, s)
      | Some (Ok _, s) => command_loop rest s
      end
    else if String.eqb command "next" then command_loop rest s
    else command_loop rest (emit [Print "Invalid command. Try again."] s)
  end
with phone_loop (stdin : list string) (new_record : record) (s : Session)
    {struct stdin} : option (ending * Session) :=
  match stdin with
  | [] => Some (UncaughtEOF, emit [Prompt "Enter a phone (leave empty to finish): "] s)
  | line :: rest =>
    let s := emit [Prompt "Enter a phone (leave empty to finish): "] s in
    let phone := strip line in
    if negb (PyStr.nonempty phone) then
      match add_record new_record (book s) with
      | (Ok _, b) => command_loop rest (with_book b s)
      | (Raise e, b) => Some (Uncaught e, with_book b s)
      end
    else
      match add_phone (VStr phone) new_record with
      | (Ok _, new_record') => phone_loop rest new_record' s
      | (Raise e, _) => Some (Uncaught e, s)
      end
  end.

(** The program: a new book, loaded from [address_book.pkl], then the
    command loop. *)
Definition main (stdin : list string) (fs : FileSystem Blob)
  : option (ending * Session) :=
  match load_from_file Blob pickle_loads "address_book.pkl" (AddressBook_init, fs) with
  | (Ok _, (b, fs')) => command_loop stdin {| book := b; disk := fs'; screen := [] |}
  | (Raise e, (b, fs')) => Some (Uncaught e, {| book := b; disk := fs'; screen := [] |})
  end.

End Program.
Arguments book {Blob} _.
Arguments disk {Blob} _.
Arguments screen {Blob} _.
Arguments mkSession {Blob} _ _ _.
Arguments emit {Blob} _ _.
Arguments with_book {Blob} _ _.
Arguments show_pages {Blob} _ _ _.
Arguments show_all {Blob} _.

(** What [show all] is to print for the pages [pages], the first being
    numbered [page]: a header and the records of each page, and the hint
    after every page but the last. *)
Fixpoint render_pages (page : nat) (pages : list (list record)) : list event :=
  match pages with
  | [] => []
  | records :: rest =>
      [Print (page_header page)] ++ print_records records ++
      (match rest with
       | [] => []
       | _ :: _ => [Print "More pages available. Type 'next' to see more."]
       end) ++
      render_pages (S page) rest
  end.

(** A line that the command loop does not read as the [add] command. *)
Definition not_add (line : string) : Prop := PyStr.lower (strip line) <> "add".

(** The files after a run that started in [s] and ended in [s'] with
    [e]: written by [exit] alone, which puts the dump of the book at
    [address_book.pkl]. *)
Definition disk_after {Blob} (pickle_dumps : dict -> Blob) (e : ending)
    (s s' : Session Blob) : Prop :=
  match e with
  | Finished =>
      disk s' =
      {| files := <["address_book.pkl" := pickle_dumps (data (book s'))]>
                    (files (disk s));
         writable := writable (disk s) |}
  | _ => disk s' = disk s
  end.

(** A session on the small book, and a script that adds a record and
    leaves by [exit]. *)
Definition small_session : Session dict :=
  {| book := small_book; disk := empty_disk; screen := [] |}.

Definition add_ann_and_exit : list string :=
  ["add"; "Ann"; ""; " 12345 "; "abc"; ""; "exit"].

(** ** Names beyond the Latin-1 block

    [str.lower] works letter by letter on the Latin-1 block, but not on
    every string: a capital sigma is lowered to σ or, where a word ends,
    to ς.  The search of the book is embedded here once more, from the
    same source lines, over an alphabet that has the three sigmas. *)
Module Wide.

Inductive uchar :=
| L1 (c : ascii)
| CapitalSigma
| SmallSigma
| FinalSigma.

(** A string: Latin-1 characters and Σ (U+03A3), σ (U+03C3), ς (U+03C2). *)
Definition ustring := list uchar.

Fixpoint of_string (s : string) : ustring :=
  match s with
  | EmptyString => []
  | String c s' => L1 c :: of_string s'
  end.

Definition uchar_eqb (a b : uchar) : bool :=
  match a, b with
  | L1 x, L1 y => Ascii.eqb x y
  | CapitalSigma, CapitalSigma => true
  | SmallSigma, SmallSigma => true
  | FinalSigma, FinalSigma => true
  | _, _ => false
  end.

(** Unicode's [Case_Ignorable] on the alphabet: the apostrophe, the
    full stop, the colon, the circumflex, the grave accent, the
    diaeresis, the soft hyphen, the macron, the acute accent, the middle
    dot and the cedilla. *)
Definition case_ignorable (c : uchar) : bool :=
  match c with
  | L1 a =>
      let n := PyStr.code a in
      ((n =? 39) || (n =? 46) || (n =? 58) || (n =? 94) || (n =? 96) ||
       (n =? 168) || (n =? 173) || (n =? 175) || (n =? 180) ||
       (n =? 183) || (n =? 184))%N
  | _ => false
  end.

(** Unicode's [Cased] on the alphabet: the letters. *)
Definition cased (c : uchar) : bool :=
  match c with
  | L1 a =>
      let n := PyStr.code a in
      ((65 <=? n) && (n <=? 90) || (97 <=? n) && (n <=? 122) ||
       (n =? 170) || (n =? 181) || (n =? 186) ||
       (192 <=? n) && (n <=? 214) || (216 <=? n) && (n <=? 246) ||
       (248 <=? n) && (n <=? 255))%N
  | _ => true
  end.

(** Skipping the case-ignorable characters of [s], the first character
    met is a cased one. *)
Fixpoint cased_next (s : ustring) : bool :=
  match s with
  | [] => false
  | c :: s' => if case_ignorable c then cased_next s' else cased c
  end.

(** The capital sigma between [before] (nearest character first) and
    [after] ends a word: a cased letter comes before it and none after. *)
Definition final_sigma (before after : ustring) : bool :=
  cased_next before && negb (cased_next after).

(** The lower case of one character by itself. *)
Definition lower_char (c : uchar) : uchar :=
  match c with
  | L1 a => L1 (PyStr.lower_char a)
  | CapitalSigma => SmallSigma
  | SmallSigma => SmallSigma
  | FinalSigma => FinalSigma
  end.

(** [str.lower] on the characters [s] that follow [before]. *)
Fixpoint lower_from (before s : ustring) : ustring :=
  match s with
  | [] => []
  | c :: rest =>
      match c with
      | CapitalSigma => if final_sigma before rest then FinalSigma else SmallSigma
      | _ => lower_char c
      end :: lower_from (c :: before) rest
  end.

(** [s.lower()] *)
Definition lower (s : ustring) : ustring := lower_from [] s.

Fixpoint startswith (p s : ustring) : bool :=
  match p, s with
  | [], _ => true
  | a :: p', b :: s' => uchar_eqb a b && startswith p' s'
  | _ :: _, [] => false
  end.

(** [sub in s] *)
Fixpoint contains (sub s : ustring) : bool :=
  startswith sub s ||
  match s with
  | [] => false
  | _ :: s' => contains sub s'
  end.

Inductive value :=
| VNone
| VStr (s : ustring)
| VDate (d : date).

(** [str(v)] *)
Definition str (v : value) : ustring :=
  match v with
  | VNone => of_string "None"
  | VStr s => s
  | VDate d => of_string (Date.isoformat d)
  end.

Definition truthy (v : value) : bool :=
  match v with
  | VNone => false
  | VStr s => match s with [] => false | _ :: _ => true end
  | VDate _ => true
  end.

Fixpoint ustring_eqb (a b : ustring) : bool :=
  match a, b with
  | [], [] => true
  | x :: a', y :: b' => uchar_eqb x y && ustring_eqb a' b'
  | _, _ => false
  end.

Definition value_eqb (a b : value) : bool :=
  match a, b with
  | VNone, VNone => true
  | VStr s, VStr t => ustring_eqb s t
  | VDate d, VDate e =>
      (Date.year d =? Date.year e) && (Date.month d =? Date.month e) &&
      (Date.day d =? Date.day e)
  | _, _ => false
  end.

Record Field := mkField { _value : value }.

(** [Field.__init__], which [Name(...)], [Phone(...)] and
    [Birthday(...)] all come down to. *)
Definition Field_init (value : value) : result Field :=
  Ok {| _value := value |}.

(** [Field.__str__] *)
Definition Field_str (self : Field) : ustring := str (_value self).

Definition get_value (self : Field) : value := _value self.

Record record := mkRecord {
  name : Field;
  phones : list Field;
  birthday : Field
}.

(** [Record.add_phone] *)
Definition add_phone (phone : value) : M record unit :=
  (phone_field <- lift (Field_init phone) ;;
   self <- get ;;
   put {| name := name self; phones := (phones self ++ [phone_field])%list;
          birthday := birthday self |})%py.

(** [Record.__init__] *)
Definition Record_init (name phone birthday : value) : result record :=
  match Field_init name, Field_init birthday with
  | Ok n, Ok b =>
      let self := {| name := n; phones := []; birthday := b |} in
      if truthy phone then
        match add_phone phone self with
        | (Ok _, self') => Ok self'
        | (Raise e, _) => Raise e
        end
      else Ok self
  | Raise e, _ => Raise e
  | _, Raise e => Raise e
  end.

Definition dict := list (value * record).

(** [d[k] = v] *)
Fixpoint dict_set (k : value) (v : record) (d : dict) : dict :=
  match d with
  | [] => [(k, v)]
  | (k', v') :: d' =>
      if value_eqb k' k then (k', v) :: d' else (k', v') :: dict_set k v d'
  end.

Definition dict_values (d : dict) : list record := map snd d.

Record IterState := mkIter {
  _iter_index : nat;
  _page_size : nat;
  _keys : list value
}.

Record AddressBook := mkBook {
  data : dict;
  iter_state : option IterState
}.

(** [AddressBook.__init__] *)
Definition AddressBook_init : AddressBook := {| data := []; iter_state := None |}.

(** [AddressBook.add_record] *)
Definition add_record (r : record) : M AddressBook unit :=
  (self <- get ;;
   put {| data := dict_set (get_value (name r)) r (data self);
          iter_state := iter_state self |})%py.

(** [v.lower()]: only a string has the method. *)
Definition value_lower (v : value) : result ustring :=
  match v with
  | VStr s => Ok (lower s)
  | _ => Raise AttributeError
  end.

(** The condition of [find_records_by_name]:
    [name.lower() in record.name.get_value().lower()]. *)
Definition name_matches (query : ustring) (r : record) : result bool :=
  match value_lower (get_value (name r)) with
  | Ok n => Ok (contains (lower query) n)
  | Raise e => Raise e
  end.

(** [AddressBook.find_records_by_name] *)
Definition find_records_by_name (name : ustring) : M AddressBook (list record) :=
  (self <- get ;;
   lift (comprehension (name_matches name) (dict_values (data self))))%py.

(** The condition of [find_records_by_phone]:
    [any(phone in str(p) for p in record.phones)]. *)
Definition phone_matches (query : ustring) (r : record) : bool :=
  existsb (fun p => contains query (Field_str p)) (phones r).

(** [AddressBook.find_records_by_phone] *)
Definition find_records_by_phone (phone : ustring) : M AddressBook (list record) :=
  (self <- get ;;
   ret (List.filter (phone_matches phone) (dict_values (data self))))%py.

(** [q] occurs in [s]. *)
Definition substring (q s : ustring) : Prop :=
  exists pre post, s = (pre ++ q ++ post)%list.




(** Every record of the book is named by a string. *)
Definition names_are_strings (b : AddressBook) : Prop :=
  Forall (fun r => exists s, get_value (name r) = VStr s) (dict_values (data b)).

(** The name NIKOΣ, its last letter a capital sigma, and the book that
    holds a record of that name with one phone. *)
Definition nikos : ustring := (of_string "NIKO" ++ [CapitalSigma])%list.

Definition nikos_record : record :=
  {| name := {| _value := VStr nikos |};
     phones := [{| _value := VStr (of_string "5551234567") |}];
     birthday := {| _value := VNone |} |}.

Definition nikos_book : AddressBook :=
  {| data := [(VStr nikos, nikos_record)]; iter_state := None |}.

End Wide.

(** * Properties *)

Lemma value_eqb_eq a b : value_eqb a b = true <-> a = b.
Proof.
  destruct a as [|s|[y m d]], b as [|t|[y' m' d']]; simpl; try (split; congruence).
  - rewrite String.eqb_eq. split; congruence.
  - rewrite !andb_true_iff, !Z.eqb_eq. split; [intros [[-> ->] ->]; reflexivity|].
    intros [= -> -> ->]. auto.
Qed.


(** ** Fields: what construction and assignment check *)

Lemma len_eqb s n : (PyStr.len s =? Z.of_nat n) = (String.length s =? n)%nat.
Proof.
  unfold PyStr.len.
  destruct (Nat.eqb_spec (String.length s) n) as [->|Hne].
  - apply Z.eqb_refl.
  - apply Z.eqb_neq. lia.
Qed.

Lemma Phone_validate_accepted s :
  phone_accepted s = true -> Phone_validate (VStr s) = Ok tt.
Proof.
  unfold phone_accepted, Phone_validate. intros [Hd Hl]%andb_true_iff.
  rewrite Hd. simpl. change 10 with (Z.of_nat 10). rewrite len_eqb, Hl. reflexivity.
Qed.

Lemma Phone_validate_rejected s :
  phone_accepted s = false -> exists msg, Phone_validate (VStr s) = Raise (ValueError msg).
Proof.
  unfold phone_accepted, Phone_validate. intros H.
  destruct (PyStr.isdigit s); simpl in *; [|eauto].
  change 10 with (Z.of_nat 10). rewrite len_eqb, H. simpl. eauto.
Qed.

Lemma isdecimal_char_isdigit c :
  PyStr.isdecimal_char c = true -> PyStr.isdigit_char c = true.
Proof.
  unfold PyStr.isdecimal_char, PyStr.isdigit_char. cbv zeta. intros ->. reflexivity.
Qed.

Lemma all_chars_impl (p q : ascii -> bool) s :
  (forall c, p c = true -> q c = true) ->
  PyStr.all_chars p s = true -> PyStr.all_chars q s = true.
Proof.
  intros Hpq. induction s as [|c s IH]; simpl; [reflexivity|].
  intros [Hc Hs]%andb_true_iff. rewrite (Hpq c Hc), (IH Hs). reflexivity.
Qed.

Lemma ten_decimal_digits_accepted s :
  ten_decimal_digits s = true -> phone_accepted s = true.
Proof.
  unfold ten_decimal_digits, phone_accepted. intros [Hd Hl]%andb_true_iff.
  rewrite Hl, andb_true_r. destruct s as [|c s]; [discriminate|].
  unfold PyStr.isdecimal in Hd. unfold PyStr.isdigit.
  revert Hd. apply all_chars_impl, isdecimal_char_isdigit.
Qed.

(** Construction never consults [validate]: any value is stored. *)
Lemma Phone_init_any v : Phone_init v = Ok {| _value := v |}.
Proof. reflexivity. Qed.

Lemma add_phone_any v r :
  add_phone v r = (Ok tt, set_phones (phones r ++ [{| _value := v |}]) r).
Proof. reflexivity. Qed.

(** The half of the phone rule that construction does meet: a string of
    ten decimal digits is stored as it is. *)
Lemma Phone_init_ten_digits s :
  ten_decimal_digits s = true ->
  exists f, Phone_init (VStr s) = Ok f /\ get_value f = VStr s /\ field_ok Phone f.
Proof.
  intros H. eexists. split; [reflexivity|]. split; [reflexivity|].
  right. simpl. apply Phone_validate_accepted, ten_decimal_digits_accepted, H.
Qed.

(** [set_value] either stores a value that passed [validate] or raises
    and leaves the field as it was. *)
Lemma set_value_cases C v f :
  (validate C v = Ok tt /\ set_value C v f = (Ok tt, {| _value := v |})) \/
  (exists e, validate C v = Raise e /\ set_value C v f = (Raise e, f)).
Proof.
  unfold set_value, bind, lift, put.
  destruct (validate C v) as [[]|e]; [left|right]; eauto.
Qed.

(** Assignment, failed or not, keeps a field that was valid valid. *)
Lemma set_value_preserves_ok C v f :
  field_ok C f -> field_ok C (snd (set_value C v f)).
Proof.
  intros Hok. destruct (set_value_cases C v f) as [[Hv ->]|(e & _ & ->)]; simpl.
  - right. exact Hv.
  - exact Hok.
Qed.

(** C1 (the code departs from the claim).  A 5-digit phone is rejected
    by [Phone.validate], yet [Phone("12345")] is constructed and
    [add_phone("12345")] returns normally with the entry appended to the
    record's phone list: no [ValueError], and the list is mutated. *)
Theorem Phone_construction_skips_validate :
  Phone_validate (VStr "12345") = Raise (ValueError "Phone must be 10 digits long") /\
  Phone_init (VStr "12345") = Ok {| _value := VStr "12345" |} /\
  forall r, Record_init (VStr "Bob") VNone VNone = Ok r ->
    phones r = [] /\
    exists r', add_phone (VStr "12345") r = (Ok tt, r') /\
               phones r' = [{| _value := VStr "12345" |}].
Proof.
  split; [reflexivity|]. split; [reflexivity|].
  intros r [= <-]. split; [reflexivity|].
  eexists. split; reflexivity.
Qed.

(** C2 (the code departs from the claim).  Right after construction the
    stored value of [Phone("12345")] is neither absent nor accepted by
    [Phone.validate]; a failed assignment then leaves it in place. *)
Theorem constructed_field_may_be_invalid :
  exists f, Phone_init (VStr "12345") = Ok f /\
    ~ field_ok Phone f /\
    exists e, set_value Phone (VStr "abc") f = (Raise e, f).
Proof.
  eexists. split; [reflexivity|]. split.
  - intros [H|H]; simpl in H; discriminate H.
  - eexists. reflexivity.
Qed.

(** ** Days to the next birthday *)

Lemma days_to_birthday_unset today r :
  truthy (_value (birthday r)) = false ->
  days_to_birthday today r = (Ok None, r).
Proof.
  intros H. unfold days_to_birthday, bind, get. rewrite H. reflexivity.
Qed.

(** A birthday stored as a non-empty string has no [month] attribute. *)
Lemma days_to_birthday_of_str today r s :
  _value (birthday r) = VStr s -> s <> "" ->
  days_to_birthday today r = (Raise AttributeError, r).
Proof.
  intros H Hs. unfold days_to_birthday, bind, get. rewrite H.
  destruct s; [congruence|]. reflexivity.
Qed.

Lemma days_before_year_succ y :
  Date.days_before_year (y + 1) =
  Date.days_before_year y + 365 + (if Date.is_leap y then 1 else 0).
Proof.
  unfold Date.days_before_year, Date.is_leap. cbv zeta.
  replace (y + 1 - 1) with y by lia.
  destruct (Z.eqb_spec (y mod 4) 0), (Z.eqb_spec (y mod 100) 0),
    (Z.eqb_spec (y mod 400) 0); simpl;
    Z.div_mod_to_equations; lia.
Qed.

(** The last day of month [m] is the day before the first of the next. *)
Lemma days_before_month_step y m :
  1 <= m <= 12 ->
  Date.days_before_month y m + Date.days_in_month y m =
  if m =? 12 then 365 + (if Date.is_leap y then 1 else 0)
  else Date.days_before_month y (m + 1).
Proof.
  intros H. unfold Date.days_before_month, Date.days_in_month.
  each_month m; destruct (Date.is_leap y); reflexivity.
Qed.

Lemma days_before_month_mono y m m' :
  1 <= m -> m < m' -> m' <= 12 ->
  Date.days_before_month y m + Date.days_in_month y m <= Date.days_before_month y m'.
Proof.
  intros H1 H2 H3.
  assert (Hm : 1 <= m <= 12) by lia. assert (Hm' : 1 <= m' <= 12) by lia.
  unfold Date.days_before_month, Date.days_in_month.
  each_month m; each_month m'; try lia; destruct (Date.is_leap y); simpl; lia.
Qed.

Lemma days_before_month_bound y m :
  1 <= m <= 12 ->
  0 <= Date.days_before_month y m /\
  Date.days_before_month y m + Date.days_in_month y m <=
    365 + (if Date.is_leap y then 1 else 0).
Proof.
  intros H. unfold Date.days_before_month, Date.days_in_month.
  each_month m; destruct (Date.is_leap y); simpl; lia.
Qed.

Lemma valid_inv y m d :
  Date.valid y m d = true ->
  1 <= y <= 9999 /\ 1 <= m <= 12 /\ 1 <= d <= Date.days_in_month y m.
Proof.
  unfold Date.valid, Date.MINYEAR, Date.MAXYEAR.
  rewrite !andb_true_iff, !Z.leb_le. lia.
Qed.

(** Within one year the ordinal follows the order of (month, day). *)
Lemma toordinal_same_year y m d m' d' :
  Date.valid y m d = true -> Date.valid y m' d' = true ->
  Date.gt (mkdate y m d) (mkdate y m' d') = false ->
  Date.toordinal (mkdate y m d) <= Date.toordinal (mkdate y m' d').
Proof.
  intros (_ & Hm & Hd)%valid_inv (_ & Hm' & Hd')%valid_inv.
  unfold Date.gt, Date.toordinal. simpl.
  rewrite Z.ltb_irrefl, Z.eqb_refl. simpl.
  intros [Hlt Hr]%orb_false_iff. apply Z.ltb_ge in Hlt.
  destruct (Z.eqb_spec m m') as [->|Hne].
  - simpl in Hr. apply Z.ltb_ge in Hr. lia.
  - pose proof (days_before_month_mono y m m'). lia.
Qed.

(** The occurrence in the following year is after every day of this one. *)
Lemma toordinal_next_year y m d m' d' :
  Date.valid y m d = true -> Date.valid (y + 1) m' d' = true ->
  Date.toordinal (mkdate y m d) < Date.toordinal (mkdate (y + 1) m' d').
Proof.
  intros (_ & Hm & Hd)%valid_inv (_ & Hm' & Hd')%valid_inv.
  unfold Date.toordinal. simpl. rewrite days_before_year_succ.
  pose proof (days_before_month_bound y m Hm).
  pose proof (days_before_month_bound (y + 1) m' Hm'). lia.
Qed.

(** On a birthday stored as a [date] the method computes what the
    specification describes: the day count, never negative, to this
    year's occurrence, or to next year's when today is strictly later. *)
Lemma days_to_birthday_of_date today b r :
  _value (birthday r) = VDate b ->
  Date.valid (Date.year today) (Date.month today) (Date.day today) = true ->
  Date.valid (Date.year today) (Date.month b) (Date.day b) = true ->
  Date.valid (Date.year today + 1) (Date.month b) (Date.day b) = true ->
  let this_year := mkdate (Date.year today) (Date.month b) (Date.day b) in
  let next_year := mkdate (Date.year today + 1) (Date.month b) (Date.day b) in
  let next := if Date.gt today this_year then next_year else this_year in
  exists n, days_to_birthday today r = (Ok (Some n), r) /\
            n = Date.toordinal next - Date.toordinal today /\ 0 <= n.
Proof.
  intros Hb Ht H0 H1. cbv zeta.
  unfold days_to_birthday, bind, get, lift, ret, new_date. rewrite Hb. simpl.
  rewrite H0.
  destruct today as [y mt dt]. simpl in *.
  destruct (Date.gt _ _) eqn:Hgt.
  - rewrite H1. eexists. split; [reflexivity|]. split; [reflexivity|].
    unfold Date.sub_days.
    pose proof (toordinal_next_year y mt dt _ _ Ht H1). lia.
  - eexists. split; [reflexivity|]. split; [reflexivity|].
    unfold Date.sub_days.
    pose proof (toordinal_same_year y mt dt _ _ Ht H0 Hgt). lia.
Qed.

(** A birthday that falls on today is zero days away. *)
Lemma days_to_birthday_today y0 y m d r :
  _value (birthday r) = VDate (mkdate y0 m d) ->
  Date.valid y m d = true ->
  days_to_birthday (mkdate y m d) r = (Ok (Some 0), r).
Proof.
  intros Hb Hv.
  unfold days_to_birthday, bind, get, lift, ret, new_date. rewrite Hb. simpl.
  rewrite Hv. unfold Date.gt. simpl.
  rewrite !Z.ltb_irrefl, !Z.eqb_refl. simpl.
  unfold Date.sub_days. rewrite Z.sub_diag. reflexivity.
Qed.

(** C3 (the code departs from the claim).  The birthday of a record is
    the string it was given; for ["1990-05-10"], whatever today's date,
    [days_to_birthday] raises [AttributeError] at [.month] instead of
    returning a day count. *)
Theorem days_to_birthday_raises_on_string_birthday :
  forall today, exists r,
    Record_init (VStr "Alice") VNone (VStr "1990-05-10") = Ok r /\
    days_to_birthday today r = (Raise AttributeError, r).
Proof.
  intros today. eexists. split; [reflexivity|]. reflexivity.
Qed.

Example days_to_birthday_in_spring :
  days_to_birthday (mkdate 2024 3 1)
    (mkRecord (mkField (VStr "Alice")) [] (mkField (VDate (mkdate 1990 5 10))))
  = (Ok (Some 70),
     mkRecord (mkField (VStr "Alice")) [] (mkField (VDate (mkdate 1990 5 10)))).
Proof. reflexivity. Qed.

Example days_to_birthday_after_it :
  fst (days_to_birthday (mkdate 2023 12 31)
    (mkRecord (mkField (VStr "Alice")) [] (mkField (VDate (mkdate 1990 1 1)))))
  = Ok (Some 1).
Proof. reflexivity. Qed.

(** ** Phones of a record *)

Example alice_rendered :
  Record_str alice = "Name: Alice, Phones: 5551234567, Birthday: 1990-05-10".
Proof. reflexivity. Qed.

Lemma set_phones_same r : set_phones (phones r) r = r.
Proof. destruct r. reflexivity. Qed.

Lemma filter_idem {A} (f : A -> bool) l :
  List.filter f (List.filter f l) = List.filter f l.
Proof.
  induction l as [|x l IH]; simpl; [reflexivity|].
  destruct (f x) eqn:Hx; simpl; [rewrite Hx, IH|]; auto.
Qed.

(** C7.  [remove_phone] returns without error; the record keeps, in
    order, exactly the entries whose rendering differs from [phone], so
    every entry rendering equal to it is gone and the others stay; the
    name and the birthday are untouched; and a second call with the same
    argument changes nothing. *)
Theorem remove_phone_idempotent (phone : string) (r : record) :
  exists r1,
    remove_phone phone r = (Ok tt, r1) /\
    phones r1 = List.filter (fun p => negb (String.eqb (Field_str p) phone)) (phones r) /\
    (forall p, In p (phones r1) <-> In p (phones r) /\ Field_str p <> phone) /\
    name r1 = name r /\ birthday r1 = birthday r /\
    remove_phone phone r1 = (Ok tt, r1).
Proof.
  eexists. split; [reflexivity|]. simpl.
  split; [reflexivity|]. split; [|split; [reflexivity|split; [reflexivity|]]].
  - intros p. rewrite List.filter_In, negb_true_iff, String.eqb_neq. reflexivity.
  - unfold remove_phone, bind, get, put, set_phones. simpl.
    rewrite filter_idem. reflexivity.
Qed.

Lemma edit_phone_loop_accepted old new ps :
  Phone_validate new = Ok tt ->
  edit_phone_loop old new ps =
  (Ok tt, map (fun p => if String.eqb (Field_str p) old then {| _value := new |} else p) ps).
Proof.
  intros Hv. induction ps as [|p ps IH]; simpl; [reflexivity|].
  rewrite IH. destruct (String.eqb (Field_str p) old); [|reflexivity].
  unfold set_value, bind, lift, put. simpl. rewrite Hv. reflexivity.
Qed.

Lemma edit_phone_loop_no_match old new ps :
  (forall p, In p ps -> Field_str p <> old) ->
  edit_phone_loop old new ps = (Ok tt, ps).
Proof.
  induction ps as [|p ps IH]; simpl; intros H; [reflexivity|].
  destruct (String.eqb_spec (Field_str p) old) as [He|_].
  - exfalso. apply (H p); auto.
  - rewrite IH; auto.
Qed.

Lemma edit_phone_loop_rejected old new e ps :
  Phone_validate new = Raise e ->
  (exists p, In p ps /\ Field_str p = old) ->
  edit_phone_loop old new ps = (Raise e, ps).
Proof.
  intros Hv. induction ps as [|p ps IH]; simpl; intros (q & Hin & Hq); [contradiction|].
  destruct (String.eqb_spec (Field_str p) old) as [He|Hne].
  - unfold set_value, bind, lift. simpl. rewrite Hv. reflexivity.
  - destruct Hin as [->|Hin]; [contradiction|].
    rewrite IH by eauto. reflexivity.
Qed.

(** C6, as the code has it.  When [Phone.validate] accepts [new_phone]
    (ten characters, each a digit for [str.isdigit]), every entry
    rendering equal to [old_phone] becomes [new_phone] and the others are
    untouched; when it rejects [new_phone] and some entry matches, the
    call raises [ValueError] and the record is exactly as before; when no
    entry matches, the call returns and the record is as before, whatever
    [new_phone] is. *)
Theorem edit_phone_spec (old_phone new_phone : string) (r : record) :
  (phone_accepted new_phone = true ->
   edit_phone old_phone (VStr new_phone) r =
   (Ok tt, set_phones
             (map (fun p => if String.eqb (Field_str p) old_phone
                            then {| _value := VStr new_phone |} else p)
                  (phones r)) r)) /\
  (phone_accepted new_phone = false ->
   (exists p, In p (phones r) /\ Field_str p = old_phone) ->
   exists msg, edit_phone old_phone (VStr new_phone) r = (Raise (ValueError msg), r)) /\
  ((forall p, In p (phones r) -> Field_str p <> old_phone) ->
   edit_phone old_phone (VStr new_phone) r = (Ok tt, r)).
Proof.
  unfold edit_phone. repeat split.
  - intros H%Phone_validate_accepted.
    rewrite edit_phone_loop_accepted by exact H. reflexivity.
  - intros [msg H]%Phone_validate_rejected Hex. exists msg.
    rewrite (edit_phone_loop_rejected _ _ _ _ H Hex), set_phones_same. reflexivity.
  - intros H. rewrite edit_phone_loop_no_match by exact H.
    rewrite set_phones_same. reflexivity.
Qed.

(** [edit_phone] at work: a replacement, a refusal, a silent no-op. *)
Lemma edit_phone_spec_examples :
  edit_phone "1111111111" (VStr "2222222222") (bob_with "1111111111")
    = (Ok tt, bob_with "2222222222") /\
  (exists msg, edit_phone "1111111111" (VStr "12345") (bob_with "1111111111")
    = (Raise (ValueError msg), bob_with "1111111111")) /\
  edit_phone "9999999999" (VStr "12345") (bob_with "1111111111")
    = (Ok tt, bob_with "1111111111").
Proof.
  split; [|split].
  - apply (proj1 (edit_phone_spec "1111111111" "2222222222" (bob_with "1111111111"))).
    reflexivity.
  - apply (proj1 (proj2 (edit_phone_spec "1111111111" "12345" (bob_with "1111111111")))).
    + reflexivity.
    + eexists. split; [left; reflexivity | reflexivity].
  - apply (proj2 (proj2 (edit_phone_spec "9999999999" "12345" (bob_with "1111111111")))).
    intros p [<-|[]]. discriminate.
Defined.

(** A phone that is not made of ten decimal digits and yet passes
    [Phone.validate]: [str.isdigit] holds of the superscript two, so
    [edit_phone] stores ["123456789²"] without raising. *)
Lemma edit_phone_accepts_superscript_digit :
  ten_decimal_digits phone_with_superscript = false /\
  edit_phone "1111111111" (VStr phone_with_superscript) (bob_with "1111111111")
    = (Ok tt, bob_with phone_with_superscript).
Proof. split; reflexivity. Qed.

(** ** Substrings *)

Lemma startswith_spec p s :
  PyStr.startswith p s = true <-> exists post, s = p +:+ post.
Proof.
  revert s. induction p as [|a p IH]; intros s; simpl.
  - split; eauto.
  - destruct s as [|b s].
    + split; [discriminate|]. intros [post H]. discriminate H.
    + rewrite andb_true_iff, Ascii.eqb_eq, IH. split.
      * intros [-> [post ->]]. eauto.
      * intros [post [= -> ->]]. eauto.
Qed.

Lemma contains_spec q s : PyStr.contains q s = true <-> substring q s.
Proof.
  unfold substring. induction s as [|c s IH]; simpl.
  - rewrite orb_false_r, startswith_spec. split.
    + intros [post H]. exists "", post. exact H.
    + intros (pre & post & H). destruct pre; [eauto|discriminate H].
  - rewrite orb_true_iff, startswith_spec, IH. split.
    + intros [[post H]|(pre & post & ->)].
      * exists "", post. exact H.
      * exists (String c pre), post. reflexivity.
    + intros (pre & post & H). destruct pre as [|a pre]; simpl in H.
      * left. eauto.
      * right. injection H as -> ->. eauto.
Qed.

Lemma startswith_empty s : PyStr.startswith "" s = true.
Proof. destruct s; reflexivity. Qed.

Lemma contains_empty s : PyStr.contains "" s = true.
Proof. destruct s; reflexivity. Qed.

(** ** Searching the book *)

Lemma comprehension_filter {A} (cond : A -> result bool) (f : A -> bool) l :
  Forall (fun x => cond x = Ok (f x)) l ->
  comprehension cond l = Ok (List.filter f l).
Proof.
  induction 1 as [|x l Hx _ IH]; simpl; [reflexivity|].
  rewrite Hx, IH. reflexivity.
Qed.


Lemma filter_all {A} (f : A -> bool) l :
  (forall x, In x l -> f x = true) -> List.filter f l = l.
Proof.
  induction l as [|x l IH]; simpl; intros H; [reflexivity|].
  rewrite (H x) by auto. f_equal. apply IH. auto.
Qed.

Lemma find_records_by_name_filter query b :
  names_are_strings b ->
  find_records_by_name query b =
  (Ok (List.filter
         (fun r => PyStr.contains (PyStr.lower query) (PyStr.lower (Field_str (name r))))
         (dict_values (data b))), b).
Proof.
  intros H. unfold find_records_by_name, bind, get, lift.
  rewrite (comprehension_filter _
    (fun r => PyStr.contains (PyStr.lower query) (PyStr.lower (Field_str (name r))))).
  - reflexivity.
  - eapply List.Forall_impl; [|exact H]. intros r [s Hs]. simpl in Hs.
    unfold name_matches, Field_str, get_value in *. rewrite Hs. reflexivity.
Qed.

Lemma phone_matches_spec query r :
  phone_matches query r = true <->
  exists p, In p (phones r) /\ substring query (Field_str p).
Proof.
  unfold phone_matches. rewrite existsb_exists.
  split; intros (p & Hin & H); exists p; (split; [exact Hin|]); apply contains_spec, H.
Qed.

Example find_alice_by_name :
  find_records_by_name "ali" small_book = (Ok [alice], small_book).
Proof. reflexivity. Qed.

Example find_alice_by_phone :
  find_records_by_phone "5551234567" small_book = (Ok [alice], small_book) /\
  find_records_by_phone "9999999999" small_book = (Ok [], small_book).
Proof. split; reflexivity. Qed.

Lemma existsb_always {A} (f : A -> bool) (l : list A) :
  (forall x, f x = true) ->
  existsb f l = match l with [] => false | _ :: _ => true end.
Proof. intros H. destruct l as [|x l]; simpl; [|rewrite H]; reflexivity. Qed.

(** C10.  With every record named by a string, the empty query finds
    every record by name, and by phone exactly the records that have at
    least one phone entry. *)
Theorem find_records_empty_query (b : AddressBook) :
  names_are_strings b ->
  find_records_by_name "" b = (Ok (dict_values (data b)), b) /\
  find_records_by_phone "" b =
    (Ok (List.filter has_phone (dict_values (data b))), b).
Proof.
  intros Hn. split.
  - rewrite find_records_by_name_filter by exact Hn.
    rewrite filter_all; [reflexivity|]. intros r _. apply contains_empty.
  - unfold find_records_by_phone, bind, get, ret. do 2 f_equal.
    apply List.filter_ext. intros r. unfold phone_matches, has_phone.
    apply existsb_always. intros p. apply contains_empty.
Qed.

Lemma find_records_empty_query_on_small_book :
  names_are_strings small_book /\
  find_records_by_name "" small_book = (Ok [alice; carol_no_phone], small_book) /\
  find_records_by_phone "" small_book = (Ok [alice], small_book).
Proof.
  split.
  - repeat constructor; eexists; reflexivity.
  - apply (find_records_empty_query small_book).
    repeat constructor; eexists; reflexivity.
Defined.

(** ** The dictionary *)

Lemma value_eqb_spec a b : reflect (a = b) (value_eqb a b).
Proof. apply iff_reflect. symmetry. apply value_eqb_eq. Qed.

Lemma dict_get_set_eq k v d : dict_get k (dict_set k v d) = Some v.
Proof.
  induction d as [|[k' v'] d IH]; simpl.
  - destruct (value_eqb_spec k k); congruence.
  - destruct (value_eqb_spec k' k) as [->|Hne]; simpl.
    + destruct (value_eqb_spec k k); congruence.
    + destruct (value_eqb_spec k' k); [contradiction|exact IH].
Qed.

Lemma dict_get_set_ne k k0 v d :
  k0 <> k -> dict_get k0 (dict_set k v d) = dict_get k0 d.
Proof.
  intros Hne. induction d as [|[k' v'] d IH]; simpl.
  - destruct (value_eqb_spec k k0); congruence.
  - destruct (value_eqb_spec k' k) as [->|Hk]; simpl.
    + destruct (value_eqb_spec k k0); congruence.
    + rewrite IH. reflexivity.
Qed.

(** Assigning twice to a key is assigning the last value once. *)
Lemma dict_set_set k v1 v2 d : dict_set k v2 (dict_set k v1 d) = dict_set k v2 d.
Proof.
  induction d as [|[k' v'] d IH]; simpl.
  - destruct (value_eqb_spec k k); congruence.
  - destruct (value_eqb_spec k' k) as [->|Hk]; simpl.
    + destruct (value_eqb_spec k k); congruence.
    + destruct (value_eqb_spec k' k); [contradiction|]. rewrite IH. reflexivity.
Qed.

Lemma dict_keys_set k v d :
  dict_keys (dict_set k v d) =
  if dict_mem k d then dict_keys d else (dict_keys d ++ [k])%list.
Proof.
  unfold dict_mem. induction d as [|[k' v'] d IH]; simpl; [reflexivity|].
  destruct (value_eqb_spec k' k) as [->|Hk]; simpl; [reflexivity|].
  rewrite IH. destruct (dict_get k d); reflexivity.
Qed.

Lemma dict_get_None k d : dict_get k d = None <-> ~ In k (dict_keys d).
Proof.
  induction d as [|[k' v'] d IH]; simpl; [tauto|].
  destruct (value_eqb_spec k' k) as [->|Hk].
  - split; [discriminate|]. intros H. exfalso. auto.
  - rewrite IH. tauto.
Qed.

(** Assignment keeps the keys of the dictionary distinct. *)
Lemma dict_set_NoDup k v d :
  List.NoDup (dict_keys d) -> List.NoDup (dict_keys (dict_set k v d)).
Proof.
  intros H. rewrite dict_keys_set. unfold dict_mem.
  destruct (dict_get k d) eqn:Hk; [exact H|].
  apply dict_get_None in Hk.
  apply List.NoDup_app; [exact H | repeat constructor; intros [] |].
  intros x Hx [<-|[]]. contradiction.
Qed.

Lemma dict_get_In k v d :
  List.NoDup (dict_keys d) -> In (k, v) d -> dict_get k d = Some v.
Proof.
  induction d as [|[k' v'] d IH]; simpl; intros Hnd Hin; [contradiction|].
  inversion Hnd as [|? ? Hnotin Hnd']; subst.
  destruct Hin as [[= -> ->]|Hin].
  - destruct (value_eqb_spec k k); congruence.
  - destruct (value_eqb_spec k' k) as [->|Hk].
    + exfalso. apply Hnotin. apply (in_map fst) in Hin. exact Hin.
    + apply IH; assumption.
Qed.

Lemma dict_keys_del k d : forall x, In x (dict_keys (dict_del k d)) -> In x (dict_keys d).
Proof.
  induction d as [|[k' v'] d IH]; simpl; [tauto|].
  intros x. destruct (value_eqb k' k); simpl; [tauto|].
  intros [->|H]; auto.
Qed.

Lemma dict_del_NoDup k d :
  List.NoDup (dict_keys d) -> List.NoDup (dict_keys (dict_del k d)).
Proof.
  induction d as [|[k' v'] d IH]; simpl; intros H; [constructor|].
  inversion H as [|? ? Hnotin Hnd]; subst.
  destruct (value_eqb k' k); simpl; [exact Hnd|].
  constructor; [|apply IH, Hnd].
  intros Hin. apply Hnotin. apply (dict_keys_del k d), Hin.
Qed.

(** The distinct keys the listing relies on hold of every book built
    with [add_record] and [remove_record] from a new one. *)
Lemma book_keys_distinct :
  List.NoDup (dict_keys (data AddressBook_init)) /\
  (forall r b, List.NoDup (dict_keys (data b)) ->
               List.NoDup (dict_keys (data (snd (add_record r b))))) /\
  (forall k b, List.NoDup (dict_keys (data b)) ->
               List.NoDup (dict_keys (data (snd (remove_record k b))))).
Proof.
  split; [constructor|]. split.
  - intros r b H. simpl. apply dict_set_NoDup, H.
  - intros k b H. unfold remove_record, bind, get, put, ret. simpl.
    destruct (dict_mem k (data b)); simpl; [apply dict_del_NoDup, H|exact H].
Qed.

(** ** Adding records *)

(** C8.  [add_record] stores the record under its name: the key then
    reads back the record as given and the other keys are as before;
    adding a second record of the same name leaves the book as if only
    the second had been added, so nothing of the first is merged in; and
    after Bob with 1111111111 then Bob with 2222222222 on a new book, the
    first phone finds nothing and the second finds the second Bob. *)
Theorem add_record_overwrites :
  (forall r b, exists b',
      add_record r b = (Ok tt, b') /\
      dict_get (get_value (name r)) (data b') = Some r /\
      (forall k, k <> get_value (name r) ->
                 dict_get k (data b') = dict_get k (data b))) /\
  (forall r1 r2 b b1,
      get_value (name r1) = get_value (name r2) ->
      add_record r1 b = (Ok tt, b1) ->
      add_record r2 b1 = add_record r2 b) /\
  (exists bob1 bob2 b1 b2,
      Record_init (VStr "Bob") (VStr "1111111111") VNone = Ok bob1 /\
      Record_init (VStr "Bob") (VStr "2222222222") VNone = Ok bob2 /\
      add_record bob1 AddressBook_init = (Ok tt, b1) /\
      add_record bob2 b1 = (Ok tt, b2) /\
      find_records_by_phone "1111111111" b2 = (Ok [], b2) /\
      find_records_by_phone "2222222222" b2 = (Ok [bob2], b2)).
Proof.
  split; [|split].
  - intros r b. eexists. split; [reflexivity|]. simpl. split.
    + apply dict_get_set_eq.
    + intros k Hk. apply dict_get_set_ne, Hk.
  - intros r1 r2 b b1 Hname [= <-].
    unfold add_record, bind, get, put, set_data. simpl.
    rewrite Hname, dict_set_set. reflexivity.
  - do 4 eexists. repeat split; reflexivity.
Qed.

Lemma add_record_overwrites_bob :
  add_record (bob_with "2222222222")
    (snd (add_record (bob_with "1111111111") small_book))
  = add_record (bob_with "2222222222") small_book.
Proof.
  apply (proj1 (proj2 add_record_overwrites)
           (bob_with "1111111111") (bob_with "2222222222") small_book).
  - reflexivity.
  - reflexivity.
Defined.

(** ** Listing the book page by page *)

Lemma lookup_all_entries d (l : list (value * record)) :
  List.NoDup (dict_keys d) -> (forall x, In x l -> In x d) ->
  lookup_all d (map fst l) = Ok (map snd l).
Proof.
  intros Hnd. induction l as [|[k v] l IH]; simpl; intros Hin; [reflexivity|].
  unfold dict_getitem. rewrite (dict_get_In k v d Hnd) by auto.
  rewrite IH by auto. reflexivity.
Qed.

Lemma lookup_all_slice d i n :
  List.NoDup (dict_keys d) ->
  lookup_all d (take n (drop i (dict_keys d))) = Ok (take n (drop i (dict_values d))).
Proof.
  intros Hnd. unfold dict_keys, dict_values.
  rewrite !List.skipn_map, !List.firstn_map.
  apply lookup_all_entries; [exact Hnd|].
  intros x Hx. apply list_elem_of_In. apply list_elem_of_In in Hx.
  apply (subseteq_drop i d), (subseteq_take n _), Hx.
Qed.

Lemma iter_resets d st :
  __iter__ {| data := d; iter_state := st |} = (Ok tt, cursor d 0 5).
Proof. reflexivity. Qed.

Lemma next_exhausted d i n :
  (length d <= i)%nat -> __next__ (cursor d i n) = (Raise StopIteration, cursor d i n).
Proof.
  intros H. unfold __next__, bind, get, cursor. simpl.
  unfold dict_keys. rewrite length_map.
  destruct (Nat.leb_spec (length d) i); [reflexivity|lia].
Qed.

Lemma next_page d i n :
  List.NoDup (dict_keys d) -> (i < length d)%nat ->
  __next__ (cursor d i n) =
  (Ok (take n (drop i (dict_values d))), cursor d (i + n) n).
Proof.
  intros Hnd H. unfold __next__, bind, get, lift, put, ret, cursor. simpl.
  rewrite lookup_all_slice by exact Hnd.
  unfold dict_keys at 1. rewrite length_map.
  destruct (Nat.leb_spec (length d) i); [lia|reflexivity].
Qed.

(** From any cursor position the loop ends within the calls the
    remaining records allow, and yields the remaining records paged. *)
Lemma for_pages_from d n fuel : forall i,
  List.NoDup (dict_keys d) -> (0 < n)%nat -> (length d - i < fuel)%nat ->
  exists pages j,
    for_pages fuel (cursor d i n) = Some (Ok pages, cursor d j n) /\
    paged n (drop i (dict_values d)) pages.
Proof.
  induction fuel as [|fuel IH]; intros i Hnd Hn Hfuel; [lia|].
  simpl. destruct (Nat.le_gt_cases (length d) i) as [Hge|Hlt].
  - rewrite next_exhausted by exact Hge. exists [], i. split; [reflexivity|].
    rewrite drop_ge; [constructor|]. unfold dict_values. rewrite length_map. exact Hge.
  - rewrite next_page by assumption.
    destruct (IH (i + n)%nat Hnd Hn) as (pages & j & -> & Hp); [lia|].
    exists (take n (drop i (dict_values d)) :: pages), j. split; [reflexivity|].
    constructor.
    + intros Hnil. apply drop_nil_inv in Hnil.
      unfold dict_values in Hnil. rewrite length_map in Hnil. lia.
    + rewrite drop_drop. exact Hp.
Qed.

Lemma paged_concat {A} n (l : list A) pages : paged n l pages -> concat pages = l.
Proof.
  induction 1 as [|l pages _ _ IH]; [reflexivity|].
  simpl. rewrite IH. apply List.firstn_skipn.
Qed.

Lemma paged_sizes {A} n (l : list A) pages :
  (0 < n)%nat -> paged n l pages ->
  Forall (fun p => (1 <= length p <= n)%nat) pages.
Proof.
  intros Hn. induction 1 as [|l pages Hl _ IH]; constructor; [|exact IH].
  rewrite length_take. destruct l; [congruence|]. simpl. lia.
Qed.

(** Every page that is followed by another one is full. *)
Lemma paged_full {A} n (l : list A) pages :
  paged n l pages ->
  forall ps1 p ps2, pages = (ps1 ++ p :: ps2)%list -> ps2 <> [] -> length p = n.
Proof.
  induction 1 as [|l pages Hl Hp IH]; intros ps1 p ps2 Heq Hne.
  - destruct ps1; discriminate Heq.
  - destruct ps1 as [|q ps1]; simpl in Heq; injection Heq as <- ->.
    + inversion Hp as [Hd|l' ? Hd' ?]; subst; [congruence|].
      rewrite length_take. apply Nat.min_l.
      destruct (Nat.le_gt_cases n (length l)) as [|Hlt]; [assumption|].
      exfalso. apply Hd'. apply drop_ge. lia.
    + eapply IH; eauto.
Qed.

Lemma paged_nil_inv {A} n (pages : list (list A)) : paged n [] pages -> pages = [].
Proof. inversion 1; congruence. Qed.

Lemma paged_twelve {A} (l : list A) pages :
  length l = 12%nat -> paged 5 l pages -> map length pages = [5; 5; 2]%nat.
Proof.
  intros Hlen Hp.
  inversion Hp as [|? ps1 _ Hp1]; subst; [discriminate Hlen|].
  inversion Hp1 as [He|? ps2 _ Hp2]; subst.
  { apply (f_equal length) in He. rewrite length_drop in He. simpl in He. lia. }
  inversion Hp2 as [He|? ps3 _ Hp3]; subst.
  { apply (f_equal length) in He. rewrite !length_drop in He. simpl in He. lia. }
  rewrite (nil_length_inv (drop 5 (drop 5 (drop 5 l)))) in Hp3
    by (rewrite !length_drop; lia).
  apply paged_nil_inv in Hp3 as ->.
  simpl. rewrite !length_take, !length_drop, Hlen. reflexivity.
Qed.

Lemma next_keeps_data b : data (snd (__next__ b)) = data b.
Proof.
  unfold __next__, bind, get, lift, put, ret, raise.
  destruct (iter_state b) as [it|]; [|reflexivity].
  destruct (_ <=? _)%nat; [reflexivity|].
  destruct (lookup_all _ _); reflexivity.
Qed.

Lemma paginate_any_cursor d st fuel :
  paginate fuel {| data := d; iter_state := st |} = for_pages fuel (cursor d 0 5).
Proof. reflexivity. Qed.

(** C5.  On a book whose keys are distinct, the listing started by
    [__iter__] ends after at most one call of [__next__] per record and
    one more; its pages, of 5 records each but possibly the last, are the
    successive slices of the records in key order, so that put end to end
    they are the records of the book, each once; twelve records give
    pages of 5, 5 and 2; and a listing requested after another was left
    part-way, or from whatever cursor the book holds, gives the same
    pages from the first record on. *)
Theorem pagination_spec (b : AddressBook) (fuel : nat) :
  List.NoDup (dict_keys (data b)) -> (length (data b) < fuel)%nat ->
  exists pages final,
    paginate fuel b = Some (Ok pages, final) /\
    data final = data b /\
    paged 5 (dict_values (data b)) pages /\
    concat pages = dict_values (data b) /\
    Forall (fun p => (1 <= length p <= 5)%nat) pages /\
    (forall ps1 p ps2, pages = (ps1 ++ p :: ps2)%list -> ps2 <> [] ->
                       length p = 5%nat) /\
    (length (data b) = 12%nat -> map length pages = [5; 5; 2]%nat) /\
    (forall b1 page b2,
        __iter__ b = (Ok tt, b1) -> __next__ b1 = (Ok page, b2) ->
        paginate fuel b2 = Some (Ok pages, final)) /\
    (forall st,
        paginate fuel {| data := data b; iter_state := st |} = Some (Ok pages, final)).
Proof.
  intros Hnd Hfuel. destruct b as [d st0]. simpl in *.
  destruct (for_pages_from d 5 fuel 0%nat Hnd) as (pages & j & Hrun & Hp); [lia..|].
  rewrite drop_0 in Hp.
  exists pages, (cursor d j 5).
  split; [rewrite paginate_any_cursor; exact Hrun|].
  split; [reflexivity|]. split; [exact Hp|].
  split; [apply (paged_concat _ _ _ Hp)|].
  split; [apply (paged_sizes 5 _ _ (Nat.lt_0_succ 4) Hp)|].
  split; [apply (paged_full _ _ _ Hp)|].
  split.
  { intros H12. apply (paged_twelve (dict_values d)); [|exact Hp].
    unfold dict_values. rewrite length_map. exact H12. }
  split.
  - intros b1 page b2 Hiter Hnext.
    rewrite iter_resets in Hiter. injection Hiter as <-.
    pose proof (next_keeps_data (cursor d 0 5)) as Hd.
    rewrite Hnext in Hd. simpl in Hd.
    destruct b2 as [d2 st2]. simpl in Hd. subst d2.
    rewrite paginate_any_cursor. exact Hrun.
  - intros st. rewrite paginate_any_cursor. exact Hrun.
Qed.

Lemma pagination_of_twelve :
  List.NoDup (dict_keys (data book_of_twelve)) /\
  (length (data book_of_twelve) < 13)%nat /\
  exists pages final,
    paginate 13 book_of_twelve = Some (Ok pages, final) /\
    data final = data book_of_twelve /\
    paged 5 (dict_values (data book_of_twelve)) pages /\
    concat pages = dict_values (data book_of_twelve) /\
    Forall (fun p => (1 <= length p <= 5)%nat) pages /\
    (forall ps1 p ps2, pages = (ps1 ++ p :: ps2)%list -> ps2 <> [] ->
                       length p = 5%nat) /\
    (length (data book_of_twelve) = 12%nat -> map length pages = [5; 5; 2]%nat) /\
    (forall b1 page b2,
        __iter__ book_of_twelve = (Ok tt, b1) -> __next__ b1 = (Ok page, b2) ->
        paginate 13 b2 = Some (Ok pages, final)) /\
    (forall st,
        paginate 13 {| data := data book_of_twelve; iter_state := st |}
        = Some (Ok pages, final)).
Proof.
  assert (Hk : List.NoDup (dict_keys (data book_of_twelve))).
  { vm_compute. repeat (constructor; [simpl; intuition discriminate|]). constructor. }
  assert (Hf : (length (data book_of_twelve) < 13)%nat) by (vm_compute; lia).
  split; [exact Hk|]. split; [exact Hf|].
  exact (pagination_spec book_of_twelve 13 Hk Hf).
Defined.

Example pages_of_twelve :
  option_map (fun out => match fst out with Ok pages => map (map Field_str)
                (map (map name) pages) | Raise _ => [] end)
             (paginate 13 book_of_twelve)
  = Some [["Ann"; "Bob"; "Cid"; "Dan"; "Eve"]; ["Fay"; "Gus"; "Hal"; "Ida"; "Jon"];
          ["Kim"; "Lea"]].
Proof. reflexivity. Qed.

(** ** Saving and loading *)

Section PickleRoundTrip.

Context {Blob : Type}.
Variable pickle_dumps : dict -> Blob.
Variable pickle_loads : Blob -> option dict.

(** What [pickle] promises: loading a dump gives the dictionary back. *)
Hypothesis pickle_roundtrip : forall d, pickle_loads (pickle_dumps d) = Some d.

Lemma load_missing_file filename (self : AddressBook) (fs : FileSystem Blob) :
  files fs !! filename = None ->
  load_from_file Blob pickle_loads filename (self, fs) = (Ok tt, (set_data [] self, fs)).
Proof.
intros H. unfold load_from_file, read_pickle, bind, get, put. simpl.
rewrite H. reflexivity.
Qed.

Lemma save_unwritable filename (self : AddressBook) (fs : FileSystem Blob) :
  writable fs filename = false ->
  save_to_file Blob pickle_dumps filename (self, fs) = (Raise OSError, (self, fs)).
Proof. intros H. unfold save_to_file, bind, get, raise. simpl. rewrite H. reflexivity. Qed.

(** C4.  Where the path can be written and [pickle] reads back what it
    dumps, [save_to_file] succeeds without touching the book, and
    [load_from_file] of the same path, into this book or any other,
    succeeds and gives a book with the dictionary that was saved: the
    same (name, phones, birthday) tuples. *)
Theorem save_then_load (filename : string) (b reader : AddressBook)
    (fs : FileSystem Blob) :
  writable fs filename = true ->
  exists fs' loaded,
    save_to_file Blob pickle_dumps filename (b, fs) = (Ok tt, (b, fs')) /\
    load_from_file Blob pickle_loads filename (reader, fs') = (Ok tt, (loaded, fs')) /\
    data loaded = data b /\
    tuples loaded = tuples b.
Proof.
  intros Hw.
  exists {| files := <[filename := pickle_dumps (data b)]> (files fs);
            writable := writable fs |}, (set_data (data b) reader).
  split; [|split; [|split; reflexivity]].
  - unfold save_to_file, bind, get, put. simpl. rewrite Hw. reflexivity.
  - unfold load_from_file, read_pickle, bind, get, put. simpl.
    rewrite lookup_insert_eq, pickle_roundtrip. reflexivity.
Qed.

End PickleRoundTrip.

(** The round trip on the small book, the dump kept as it is. *)
Lemma save_then_load_small_book :
  (forall d : dict, Some (id d) = Some d) /\
  writable (@empty_disk dict) "address_book.pkl" = true /\
  exists fs' loaded,
    save_to_file dict id "address_book.pkl" (small_book, empty_disk)
      = (Ok tt, (small_book, fs')) /\
    load_from_file dict Some "address_book.pkl" (AddressBook_init, fs')
      = (Ok tt, (loaded, fs')) /\
    data loaded = data small_book /\
    tuples loaded = tuples small_book.
Proof.
  split; [reflexivity|]. split; [reflexivity|].
  apply (save_then_load id Some (fun d => eq_refl) "address_book.pkl"
           small_book AddressBook_init empty_disk).
  reflexivity.
Defined.

(** * Further properties of the code *)

(** ** Validation and assignment *)

Lemma isdigit_all_chars s :
  PyStr.isdigit s = PyStr.nonempty s && PyStr.all_chars PyStr.isdigit_char s.
Proof. destruct s; reflexivity. Qed.

(** X1.  [Phone.validate] accepts [None] and the strings of ten characters
    that are all digits for [str.isdigit], and nothing else; every
    refusal is a [ValueError], the empty string being refused for its
    characters, not for its length. *)
Theorem Phone_validate_accepts (v : value) :
  (Phone_validate v = Ok tt <->
   v = VNone \/
   exists s, v = VStr s /\ String.length s = 10%nat /\
             PyStr.all_chars PyStr.isdigit_char s = true) /\
  (Phone_validate v = Ok tt \/ exists msg, Phone_validate v = Raise (ValueError msg)) /\
  Phone_validate (VStr "") = Raise (ValueError "Phone must contain only digits").
Proof.
  split; [|split; [|reflexivity]].
  - destruct v as [|s|d]; simpl.
    + split; auto.
    + split.
      * intros H. right. exists s. split; [reflexivity|].
        destruct (PyStr.isdigit s) eqn:Hd; simpl in H; [|discriminate].
        change 10 with (Z.of_nat 10) in H. rewrite len_eqb in H.
        destruct (Nat.eqb_spec (String.length s) 10) as [Hl|]; [|discriminate].
        split; [exact Hl|].
        rewrite isdigit_all_chars in Hd. apply andb_true_iff in Hd. tauto.
      * intros [H|(s' & [= <-] & Hl & Hc)]; [discriminate|].
        apply Phone_validate_accepted. unfold phone_accepted.
        rewrite isdigit_all_chars, Hc, Hl. destruct s; [discriminate|reflexivity].
    + split; [discriminate|]. intros [H|(s & H & _)]; discriminate.
  - destruct v as [|s|d]; simpl; eauto.
    destruct (PyStr.isdigit s); simpl; eauto.
    destruct (PyStr.len s =? 10); simpl; eauto.
Qed.

Lemma assign_all_value C vs f :
  _value (assign_all C vs f) = last_accepted C vs (_value f).
Proof.
  revert f. induction vs as [|v vs IH]; intros f; simpl; [reflexivity|].
  rewrite IH. destruct (set_value_cases C v f) as [[Hv ->]|(e & Hv & ->)];
    rewrite Hv; reflexivity.
Qed.

Lemma assign_all_ok C vs f : field_ok C f -> field_ok C (assign_all C vs f).
Proof.
  revert f. induction vs as [|v vs IH]; intros f H; simpl; [exact H|].
  apply IH, set_value_preserves_ok, H.
Qed.

(** X2.  Through any run of assignments, failed ones included, a field holds
    the last value its [validate] accepted, or its first value when none
    was; so a field that was valid stays valid, and a field given an
    invalid value at construction becomes valid with the first
    assignment that succeeds and stays so. *)
Theorem assignments_keep_last_accepted (C : FieldClass) (vs : list value) (f : Field) :
  _value (assign_all C vs f) = last_accepted C vs (_value f) /\
  (field_ok C f -> field_ok C (assign_all C vs f)) /\
  (existsb (fun v => is_ok (validate C v)) vs = true -> field_ok C (assign_all C vs f)).
Proof.
  split; [apply assign_all_value|]. split; [apply assign_all_ok|].
  revert f. induction vs as [|v vs IH]; intros f; simpl; [discriminate|].
  destruct (set_value_cases C v f) as [[Hv ->]|(e & Hv & ->)]; rewrite Hv; simpl.
  - intros _. apply assign_all_ok. right. exact Hv.
  - apply IH.
Qed.

Lemma assignments_keep_last_accepted_example :
  existsb (fun v => is_ok (validate Phone v))
          [VStr "abc"; VStr "0123456789"; VStr "12"] = true /\
  field_ok Phone
    (assign_all Phone [VStr "abc"; VStr "0123456789"; VStr "12"]
                {| _value := VStr "12345" |}).
Proof.
  split; [reflexivity|].
  apply (proj2 (proj2 (assignments_keep_last_accepted Phone
           [VStr "abc"; VStr "0123456789"; VStr "12"] {| _value := VStr "12345" |}))).
  reflexivity.
Defined.

(** X3.  Whatever [strptime] accepts, a value that the birthday setter
    stores is [None] or a string, and [days_to_birthday] of a record
    holding it answers [None] or raises [AttributeError]: no birthday set
    through the setter ever gives a day count. *)
Theorem validated_birthday_gives_no_count
    (strptime : string -> string -> option date) (v : value) (b b' : Field)
    (r : record) (today : date) :
  Birthday_value_setter strptime v b = (Ok tt, b') ->
  birthday r = b' ->
  get_value b' = v /\
  (days_to_birthday today r = (Ok None, r) \/
   days_to_birthday today r = (Raise AttributeError, r)).
Proof.
  unfold Birthday_value_setter. intros Hset Hb.
  destruct (set_value_cases (Birthday strptime) v b) as [[Hv Hs]|(e & _ & Hs)];
    rewrite Hs in Hset; [|discriminate].
  injection Hset as <-. split; [reflexivity|].
  unfold days_to_birthday, bind, get. rewrite Hb. simpl in *.
  destruct v as [|s|d]; simpl in *.
  - left. reflexivity.
  - destruct s; [left|right]; reflexivity.
  - discriminate.
Qed.

Lemma validated_birthday_gives_no_count_example :
  Birthday_value_setter (fun _ _ => Some (mkdate 1990 5 10)) (VStr "1990-05-10")
    {| _value := VNone |} = (Ok tt, {| _value := VStr "1990-05-10" |}) /\
  (days_to_birthday (mkdate 2024 3 1) alice = (Ok None, alice) \/
   days_to_birthday (mkdate 2024 3 1) alice = (Raise AttributeError, alice)).
Proof.
  split; [reflexivity|].
  apply (validated_birthday_gives_no_count (fun _ _ => Some (mkdate 1990 5 10))
           (VStr "1990-05-10") {| _value := VNone |} {| _value := VStr "1990-05-10" |}
           alice (mkdate 2024 3 1)); reflexivity.
Defined.

(** ** Day counts on birthdays held as dates *)

(** Within one year a later (month, day) has a larger ordinal. *)
Lemma toordinal_same_year_lt y m d m' d' :
  Date.valid y m d = true -> Date.valid y m' d' = true ->
  Date.gt (mkdate y m d) (mkdate y m' d') = true ->
  Date.toordinal (mkdate y m' d') < Date.toordinal (mkdate y m d).
Proof.
  intros (_ & Hm & Hd)%valid_inv (_ & Hm' & Hd')%valid_inv.
  unfold Date.gt, Date.toordinal. simpl.
  rewrite Z.ltb_irrefl, Z.eqb_refl. simpl.
  intros [Hlt|[Heq Hlt]%andb_true_iff]%orb_true_iff.
  - apply Z.ltb_lt in Hlt. pose proof (days_before_month_mono y m' m). lia.
  - apply Z.eqb_eq in Heq. apply Z.ltb_lt in Hlt. subst. lia.
Qed.

Lemma gt_false_same_day y m d m' d' :
  Date.gt (mkdate y m d) (mkdate y m' d') = false ->
  Date.gt (mkdate y m' d') (mkdate y m d) = false ->
  m = m' /\ d = d'.
Proof.
  unfold Date.gt. simpl. rewrite !Z.ltb_irrefl, !Z.eqb_refl. simpl.
  intros [H1 H2]%orb_false_iff [H3 H4]%orb_false_iff.
  apply Z.ltb_ge in H1, H3. assert (m = m') as -> by lia.
  rewrite Z.eqb_refl in H2, H4. simpl in H2, H4. apply Z.ltb_ge in H2, H4. lia.
Qed.

(** The same (month, day) one year on is 365 or 366 days later. *)
Lemma toordinal_year_on y m d :
  1 <= m <= 12 ->
  365 <= Date.toordinal (mkdate (y + 1) m d) - Date.toordinal (mkdate y m d) <= 366.
Proof.
  intros Hm. unfold Date.toordinal. simpl. rewrite days_before_year_succ.
  unfold Date.days_before_month.
  each_month m; destruct (Date.is_leap y), (Date.is_leap (y + 1)); simpl; lia.
Qed.

(** X4.  For a birthday held as a [date] whose day exists this year and
    next, the count is between 0 and 365, and it is 0 exactly on the
    birthday. *)
Theorem days_to_birthday_range (today b : date) (r : record) :
  _value (birthday r) = VDate b ->
  Date.valid (Date.year today) (Date.month today) (Date.day today) = true ->
  Date.valid (Date.year today) (Date.month b) (Date.day b) = true ->
  Date.valid (Date.year today + 1) (Date.month b) (Date.day b) = true ->
  exists n, days_to_birthday today r = (Ok (Some n), r) /\
            0 <= n <= 365 /\
            (n = 0 <-> Date.month today = Date.month b /\ Date.day today = Date.day b).
Proof.
  intros Hb Ht H0 H1.
  destruct (days_to_birthday_of_date today b r Hb Ht H0 H1) as (n & Hrun & Hn & Hpos).
  exists n. split; [exact Hrun|].
  destruct today as [y mt dt]. simpl in *.
  pose proof (valid_inv _ _ _ Ht) as (_ & Hmt & Hdt).
  pose proof (valid_inv _ _ _ H0) as (_ & Hmb & Hdb).
  pose proof (days_before_month_bound y mt Hmt) as [Hlo Hhi].
  pose proof (days_before_month_bound y (Date.month b) Hmb) as [Hlo' Hhi'].
  destruct (Date.gt (mkdate y mt dt) (mkdate y (Date.month b) (Date.day b))) eqn:Hgt.
  - pose proof (toordinal_same_year_lt _ _ _ _ _ Ht H0 Hgt) as Hlt.
    pose proof (toordinal_year_on y (Date.month b) (Date.day b) Hmb) as Hyear.
    pose proof (toordinal_next_year _ _ _ _ _ Ht H1) as Hnext.
    clear Hhi Hhi'. split; [lia|]. split; [lia|].
    intros [-> ->]. unfold Date.gt in Hgt. simpl in Hgt.
    rewrite !Z.ltb_irrefl, !Z.eqb_refl in Hgt. discriminate.
  - split.
    + unfold Date.toordinal in Hn. simpl in Hn.
      destruct (Date.is_leap y); lia.
    + clear Hhi Hhi'. split.
      * intros ->.
        destruct (Date.gt (mkdate y (Date.month b) (Date.day b)) (mkdate y mt dt)) eqn:Hgt'.
        -- pose proof (toordinal_same_year_lt _ _ _ _ _ H0 Ht Hgt'). lia.
        -- destruct (gt_false_same_day _ _ _ _ _ Hgt Hgt'). auto.
      * intros [-> ->]. lia.
Qed.

Lemma days_to_birthday_range_example :
  exists n, days_to_birthday (mkdate 2024 3 1)
              (mkRecord (mkField (VStr "Alice")) [] (mkField (VDate (mkdate 1990 5 10))))
            = (Ok (Some n),
               mkRecord (mkField (VStr "Alice")) [] (mkField (VDate (mkdate 1990 5 10)))) /\
            0 <= n <= 365 /\
            (n = 0 <-> 3 = 5 /\ 1 = 10).
Proof.
  apply (days_to_birthday_range (mkdate 2024 3 1) (mkdate 1990 5 10)
           (mkRecord (mkField (VStr "Alice")) [] (mkField (VDate (mkdate 1990 5 10)))));
    reflexivity.
Defined.

Lemma leap_then_next_not y : Date.is_leap y = true -> Date.is_leap (y + 1) = false.
Proof.
  unfold Date.is_leap. intros [H _]%andb_true_iff. apply Z.eqb_eq in H.
  apply andb_false_iff. left. apply Z.eqb_neq.
  Z.div_mod_to_equations. lia.
Qed.

Lemma feb29_valid y :
  Date.valid y 2 29 = (1 <=? y) && (y <=? 9999) && Date.is_leap y.
Proof.
  unfold Date.valid, Date.days_in_month, Date.MINYEAR, Date.MAXYEAR. simpl.
  destruct (Date.is_leap y); simpl; rewrite ?andb_true_r, ?andb_false_r; reflexivity.
Qed.

(** X5.  A birthday held as a February 29th date gives a count only while
    this year's February 29th exists and has not passed; in a common
    year, or later in a leap year, building the date raises
    [ValueError]. *)
Theorem days_to_birthday_feb29 (today : date) (y0 : Z) (r : record) :
  _value (birthday r) = VDate (mkdate y0 2 29) ->
  Date.valid (Date.year today) (Date.month today) (Date.day today) = true ->
  if Date.is_leap (Date.year today) &&
     negb (Date.gt today (mkdate (Date.year today) 2 29))
  then exists n, days_to_birthday today r = (Ok (Some n), r) /\ 0 <= n <= 59
  else exists msg, days_to_birthday today r = (Raise (ValueError msg), r).
Proof.
  intros Hb Ht. destruct today as [y mt dt]. simpl in *.
  pose proof (valid_inv _ _ _ Ht) as (Hy & Hmt & Hdt).
  unfold days_to_birthday, bind, get, lift, ret, new_date. rewrite Hb. simpl.
  rewrite !feb29_valid.
  assert (Hy1 : (1 <=? y) && (y <=? 9999) = true).
  { apply andb_true_iff. split; apply Z.leb_le; lia. }
  rewrite Hy1. simpl.
  destruct (Date.is_leap y) eqn:Hleap; simpl; [|eauto].
  destruct (Date.gt _ _) eqn:Hgt; simpl.
  - rewrite (leap_then_next_not y Hleap), andb_false_r. eauto.
  - eexists. split; [reflexivity|].
    assert (Hv : Date.valid y 2 29 = true) by (rewrite feb29_valid, Hy1, Hleap; reflexivity).
    pose proof (toordinal_same_year _ _ _ _ _ Ht Hv Hgt) as Hle.
    unfold Date.sub_days. split; [lia|].
    unfold Date.toordinal in *. simpl in *.
    pose proof (days_before_month_bound y mt Hmt) as [Hlo _].
    unfold Date.days_before_month at 1. simpl. lia.
Qed.

Lemma days_to_birthday_feb29_example :
  exists msg,
    days_to_birthday (mkdate 2023 6 1)
      (mkRecord (mkField (VStr "Leap")) [] (mkField (VDate (mkdate 2000 2 29))))
    = (Raise (ValueError msg),
       mkRecord (mkField (VStr "Leap")) [] (mkField (VDate (mkdate 2000 2 29)))).
Proof.
  apply (days_to_birthday_feb29 (mkdate 2023 6 1) 2000
           (mkRecord (mkField (VStr "Leap")) [] (mkField (VDate (mkdate 2000 2 29)))));
    reflexivity.
Defined.

(** ** Building and editing a record *)

(** [Record(name, phone, birthday)] never raises and checks nothing:
    the name and the birthday are stored as given, and the record has
    the one phone given, or none when the phone is [None] or empty. *)
Theorem Record_init_stores_arguments (n phone b : value) :
  exists r, Record_init n phone b = Ok r /\
            get_value (name r) = n /\ get_value (birthday r) = b /\
            map get_value (phones r) = if truthy phone then [phone] else [].
Proof.
  unfold Record_init, Name_init, Birthday_init, Field_init.
  destruct (truthy phone); eexists; (split; [reflexivity|]); auto.
Qed.

Lemma filter_app_singleton {A} (f : A -> bool) l x :
  List.filter f (l ++ [x]) = (List.filter f l ++ if f x then [x] else [])%list.
Proof. rewrite List.filter_app. simpl. destruct (f x); reflexivity. Qed.

(** X6.  Removing a phone right after adding it is removing it from the
    record as it was: the entry just added goes, with every older entry
    of the same rendering. *)
Theorem add_then_remove_phone (s : string) (r : record) :
  exists r1, add_phone (VStr s) r = (Ok tt, r1) /\
             length (phones r1) = S (length (phones r)) /\
             remove_phone s r1 = remove_phone s r /\
             ((forall p, In p (phones r) -> Field_str p <> s) ->
              remove_phone s r1 = (Ok tt, r)).
Proof.
  eexists. split; [reflexivity|]. simpl. split; [|split].
  - rewrite length_app. simpl. lia.
  - unfold remove_phone, bind, get, put, set_phones. simpl.
    rewrite filter_app_singleton. unfold Field_str at 2. simpl.
    rewrite String.eqb_refl. simpl. rewrite app_nil_r. reflexivity.
  - intros Hno. unfold remove_phone, bind, get, put, set_phones. simpl.
    rewrite filter_app_singleton. unfold Field_str at 2. simpl.
    rewrite String.eqb_refl. simpl. rewrite app_nil_r.
    rewrite filter_all.
    + destruct r. reflexivity.
    + intros p Hp. apply negb_true_iff, String.eqb_neq, Hno, Hp.
Qed.

Lemma add_then_remove_phone_example :
  exists r1, add_phone (VStr "5550000000") alice = (Ok tt, r1) /\
             remove_phone "5550000000" r1 = (Ok tt, alice).
Proof.
  destruct (add_then_remove_phone "5550000000" alice) as (r1 & Hadd & _ & _ & Hback).
  exists r1. split; [exact Hadd|]. apply Hback.
  intros p [<-|[]]. discriminate.
Defined.

Lemma edit_phone_loop_shape old new ps :
  length (snd (edit_phone_loop old new ps)) = length ps /\
  (forall e, fst (edit_phone_loop old new ps) = Raise e ->
             snd (edit_phone_loop old new ps) = ps /\ exists msg, e = ValueError msg).
Proof.
  induction ps as [|p ps [IHl IHe]]; simpl.
  - split; [reflexivity|]. discriminate.
  - destruct (String.eqb (Field_str p) old).
    + destruct (set_value_cases Phone new p) as [[Hv ->]|(e & Hv & ->)].
      * destruct (edit_phone_loop old new ps) as [res ps'] eqn:Hl. simpl in *.
        split; [f_equal; exact IHl|].
        intros e He. destruct (IHe e He) as [_ Hmsg].
        (* a matching entry was accepted, so no later one is refused *)
        exfalso. clear - Hv He Hl. revert res ps' Hl He.
        induction ps as [|q qs IH]; simpl; intros res ps' Hl He.
        -- injection Hl as <- _. discriminate.
        -- destruct (String.eqb (Field_str q) old).
           ++ unfold set_value, bind, lift, put in Hl. simpl in Hl. rewrite Hv in Hl.
              destruct (edit_phone_loop old new qs) as [res' qs'] eqn:Hq.
              injection Hl as <- _. eapply IH; eauto.
           ++ destruct (edit_phone_loop old new qs) as [res' qs'] eqn:Hq.
              injection Hl as <- _. eapply IH; eauto.
      * simpl. split; [reflexivity|]. intros e' [= <-]. split; [reflexivity|].
        simpl in Hv. destruct new as [|s|d]; simpl in Hv.
        -- discriminate.
        -- destruct (PyStr.isdigit s); simpl in Hv; [|injection Hv as <-; eauto].
           destruct (PyStr.len s =? 10); simpl in Hv; [discriminate|].
           injection Hv as <-; eauto.
        -- injection Hv as <-. eauto.
    + destruct (edit_phone_loop old new ps) as [res ps'] eqn:Hl. simpl in *.
      split; [f_equal; exact IHl|].
      intros e He. destruct (IHe e He) as [-> Hmsg]. auto.
Qed.

(** X7.  Whatever the new value, a string or not, [edit_phone] keeps the
    number of phones, the name and the birthday; and when it raises, the
    exception is a [ValueError] and the record is exactly as before: no
    entry is left half-edited. *)
Theorem edit_phone_all_or_nothing (old_phone : string) (new_phone : value) (r : record) :
  let out := edit_phone old_phone new_phone r in
  length (phones (snd out)) = length (phones r) /\
  name (snd out) = name r /\ birthday (snd out) = birthday r /\
  (forall e, fst out = Raise e -> snd out = r /\ exists msg, e = ValueError msg).
Proof.
  cbv zeta. unfold edit_phone.
  pose proof (edit_phone_loop_shape old_phone new_phone (phones r)) as [Hl He].
  destruct (edit_phone_loop old_phone new_phone (phones r)) as [res ps]. simpl in *.
  split; [exact Hl|]. split; [reflexivity|]. split; [reflexivity|].
  intros e Hr. destruct (He e Hr) as [-> Hmsg]. split; [apply set_phones_same|exact Hmsg].
Qed.

(** X8.  After an accepted edit to a phone that renders differently, no
    entry renders as the old phone any more, so removing the old phone
    then changes nothing. *)
Theorem edit_phone_leaves_no_old (old_phone new_phone : string) (r : record) :
  phone_accepted new_phone = true -> new_phone <> old_phone ->
  exists r1, edit_phone old_phone (VStr new_phone) r = (Ok tt, r1) /\
             (forall p, In p (phones r1) -> Field_str p <> old_phone) /\
             remove_phone old_phone r1 = (Ok tt, r1).
Proof.
  intros Hacc Hne.
  unfold edit_phone.
  rewrite (edit_phone_loop_accepted old_phone (VStr new_phone) (phones r)
             (Phone_validate_accepted new_phone Hacc)).
  eexists. split; [reflexivity|].
  assert (Hno : forall p,
    In p (map (fun p => if String.eqb (Field_str p) old_phone
                        then {| _value := VStr new_phone |} else p) (phones r)) ->
    Field_str p <> old_phone).
  { intros p (q & <- & _)%in_map_iff.
    destruct (String.eqb_spec (Field_str q) old_phone); [exact Hne|assumption]. }
  split; [exact Hno|].
  unfold remove_phone, bind, get, put. simpl.
  rewrite filter_all.
  - reflexivity.
  - intros p Hp. apply negb_true_iff, String.eqb_neq, Hno, Hp.
Qed.

Lemma edit_phone_leaves_no_old_example :
  exists r1,
    edit_phone "1111111111" (VStr "2222222222") (bob_with "1111111111") = (Ok tt, r1) /\
    (forall p, In p (phones r1) -> Field_str p <> "1111111111") /\
    remove_phone "1111111111" r1 = (Ok tt, r1).
Proof.
  apply (edit_phone_leaves_no_old "1111111111" "2222222222" (bob_with "1111111111")).
  - reflexivity.
  - discriminate.
Defined.

(** ** Removing records *)

Lemma dict_get_del_ne k k0 d : k0 <> k -> dict_get k0 (dict_del k d) = dict_get k0 d.
Proof.
  intros Hne. induction d as [|[k' v'] d IH]; simpl; [reflexivity|].
  destruct (value_eqb_spec k' k) as [->|Hk]; simpl.
  - destruct (value_eqb_spec k k0); congruence.
  - rewrite IH. reflexivity.
Qed.

Lemma dict_get_del_eq k d :
  List.NoDup (dict_keys d) -> dict_get k (dict_del k d) = None.
Proof.
  induction d as [|[k' v'] d IH]; simpl; intros Hnd; [reflexivity|].
  inversion Hnd as [|? ? Hnotin Hnd']; subst.
  destruct (value_eqb_spec k' k) as [->|Hk]; simpl.
  - apply dict_get_None, Hnotin.
  - destruct (value_eqb_spec k' k); [contradiction|]. apply IH, Hnd'.
Qed.

Lemma dict_del_absent k d : dict_get k d = None -> dict_del k d = d.
Proof.
  induction d as [|[k' v'] d IH]; simpl; [reflexivity|].
  destruct (value_eqb k' k); [discriminate|]. intros H. rewrite IH by exact H. reflexivity.
Qed.

Lemma dict_del_set_fresh k v d : dict_get k d = None -> dict_del k (dict_set k v d) = d.
Proof.
  induction d as [|[k' v'] d IH]; simpl.
  - intros _. destruct (value_eqb_spec k k); congruence.
  - destruct (value_eqb k' k) eqn:Hk; [discriminate|]. simpl. rewrite Hk.
    intros H. rewrite IH by exact H. reflexivity.
Qed.

Lemma set_data_same b : set_data (data b) b = b.
Proof. destruct b. reflexivity. Qed.

(** X9.  [remove_record] never raises; afterwards the name is not a key
    and every other key reads as before; for a name that is no key the
    book is unchanged, so removing twice is removing once. *)
Theorem remove_record_spec (k : value) (b : AddressBook) :
  List.NoDup (dict_keys (data b)) ->
  exists b', remove_record k b = (Ok tt, b') /\
    dict_get k (data b') = None /\
    (forall k', k' <> k -> dict_get k' (data b') = dict_get k' (data b)) /\
    (dict_get k (data b) = None -> b' = b) /\
    remove_record k b' = (Ok tt, b').
Proof.
  intros Hnd. unfold remove_record, bind, get, put, ret, dict_mem. simpl.
  destruct (dict_get k (data b)) as [v|] eqn:Hk; simpl.
  - eexists. split; [reflexivity|]. simpl.
    rewrite (dict_get_del_eq k (data b) Hnd).
    split; [reflexivity|]. split; [intros k' Hne; apply dict_get_del_ne, Hne|].
    split; [discriminate|reflexivity].
  - exists b. split; [reflexivity|]. rewrite Hk. auto.
Qed.

Lemma remove_record_spec_example :
  List.NoDup (dict_keys (data small_book)) /\
  exists b', remove_record (VStr "Alice") small_book = (Ok tt, b') /\
    dict_get (VStr "Alice") (data b') = None /\
    (forall k', k' <> VStr "Alice" -> dict_get k' (data b') = dict_get k' (data small_book)) /\
    (dict_get (VStr "Alice") (data small_book) = None -> b' = small_book) /\
    remove_record (VStr "Alice") b' = (Ok tt, b').
Proof.
  assert (H : List.NoDup (dict_keys (data small_book))).
  { vm_compute. repeat (constructor; [simpl; intuition discriminate|]). constructor. }
  split; [exact H|]. exact (remove_record_spec (VStr "Alice") small_book H).
Defined.

(** X10.  Adding a record under a name that is no key and then removing that
    name gives the book back as it was. *)
Theorem add_then_remove_record (r : record) (b : AddressBook) :
  dict_get (get_value (name r)) (data b) = None ->
  exists b1, add_record r b = (Ok tt, b1) /\
             remove_record (get_value (name r)) b1 = (Ok tt, b).
Proof.
  intros Hfresh. eexists. split; [reflexivity|].
  unfold remove_record, bind, get, put, ret, dict_mem. simpl.
  rewrite dict_get_set_eq. simpl. unfold set_data. simpl.
  rewrite dict_del_set_fresh by exact Hfresh. destruct b. reflexivity.
Qed.

Lemma add_then_remove_record_example :
  exists b1, add_record (bob_with "1111111111") small_book = (Ok tt, b1) /\
             remove_record (VStr "Bob") b1 = (Ok tt, small_book).
Proof.
  apply (add_then_remove_record (bob_with "1111111111") small_book). reflexivity.
Defined.

(** ** Searching after adding, and names that are not strings *)






Lemma comprehension_raises {A} (cond : A -> result bool) (e : exn) (l : list A) :
  (forall x, In x l -> cond x = Raise e \/ exists c, cond x = Ok c) ->
  (exists x, In x l /\ cond x = Raise e) ->
  comprehension cond l = Raise e.
Proof.
  induction l as [|x l IH]; simpl; intros Hall (y & Hy & He); [contradiction|].
  destruct (Hall x (or_introl eq_refl)) as [Hx|[c Hx]]; rewrite Hx; [reflexivity|].
  rewrite IH; [reflexivity|auto|].
  destruct Hy as [->|Hy]; [congruence|eauto].
Qed.

(** X12.  One record whose name is not a string, such as [Record(None)],
    makes every search by name raise [AttributeError], whatever the
    query and the other records; searches by phone are not affected. *)
Theorem find_by_name_needs_string_names (query : string) (b : AddressBook) :
  (exists r, In r (dict_values (data b)) /\
             forall s, get_value (name r) <> VStr s) ->
  find_records_by_name query b = (Raise AttributeError, b) /\
  exists rs, find_records_by_phone query b = (Ok rs, b).
Proof.
  intros (r & Hr & Hns). split; [|eexists; reflexivity].
  unfold find_records_by_name, bind, get, lift.
  rewrite (comprehension_raises _ AttributeError); [reflexivity| |].
  - intros x _. unfold name_matches, value_lower.
    destruct (get_value (name x)); eauto.
  - exists r. split; [exact Hr|]. unfold name_matches, value_lower.
    destruct (get_value (name r)) as [|s|d] eqn:Hv; try reflexivity.
    exfalso. exact (Hns s eq_refl).
Qed.

Lemma find_by_name_needs_string_names_example :
  find_records_by_name "a" (snd (add_record nameless small_book))
    = (Raise AttributeError, snd (add_record nameless small_book)) /\
  exists rs, find_records_by_phone "a" (snd (add_record nameless small_book))
             = (Ok rs, snd (add_record nameless small_book)).
Proof.
  apply (find_by_name_needs_string_names "a" (snd (add_record nameless small_book))).
  exists nameless. split.
  - simpl. auto.
  - intros s. discriminate.
Defined.

(** ** Listings and changes to the book *)

Lemma lookup_all_resolved d (l : list (value * record)) :
  (forall k v, In (k, v) l -> dict_get k d = Some v) ->
  lookup_all d (map fst l) = Ok (map snd l).
Proof.
  induction l as [|[k v] l IH]; simpl; intros H; [reflexivity|].
  unfold dict_getitem. rewrite (H k v) by auto. rewrite IH by auto. reflexivity.
Qed.

Lemma lookup_all_length d ks rs : lookup_all d ks = Ok rs -> length rs = length ks.
Proof.
  revert rs. induction ks as [|k ks IH]; simpl; intros rs H.
  - injection H as <-. reflexivity.
  - destruct (dict_getitem k d); [|discriminate].
    destruct (lookup_all d ks) as [rs'|]; [|discriminate].
    injection H as <-. simpl. f_equal. apply IH. reflexivity.
Qed.

Lemma lookup_all_take d n ks rs :
  lookup_all d ks = Ok rs -> lookup_all d (take n ks) = Ok (take n rs).
Proof.
  revert n rs. induction ks as [|k ks IH]; intros n rs H; simpl in H.
  - injection H as <-. destruct n; reflexivity.
  - destruct (dict_getitem k d) as [r|] eqn:Hk; [|discriminate].
    destruct (lookup_all d ks) as [rs'|] eqn:Hks; [|discriminate].
    injection H as <-. destruct n; simpl; [reflexivity|].
    rewrite Hk, (IH n rs' eq_refl). reflexivity.
Qed.

Lemma lookup_all_drop d n ks rs :
  lookup_all d ks = Ok rs -> lookup_all d (drop n ks) = Ok (drop n rs).
Proof.
  revert n rs. induction ks as [|k ks IH]; intros n rs H; simpl in H.
  - injection H as <-. destruct n; reflexivity.
  - destruct (dict_getitem k d) as [r|] eqn:Hk; [|discriminate].
    destruct (lookup_all d ks) as [rs'|] eqn:Hks; [|discriminate].
    injection H as <-. destruct n; simpl.
    + rewrite Hk, Hks. reflexivity.
    + apply IH. reflexivity.
Qed.

Lemma lookup_all_missing d ks :
  (exists k, In k ks /\ dict_get k d = None) -> lookup_all d ks = Raise KeyError.
Proof.
  induction ks as [|k ks IH]; simpl; intros (k0 & Hin & Hk0); [contradiction|].
  unfold dict_getitem. destruct (dict_get k d) eqn:Hk; [|reflexivity].
  rewrite IH; [reflexivity|]. destruct Hin as [->|Hin]; [congruence|eauto].
Qed.

Lemma next_on_listing d i n ks rs :
  lookup_all d ks = Ok rs -> (i < length ks)%nat ->
  __next__ (listing d i n ks) = (Ok (take n (drop i rs)), listing d (i + n) n ks).
Proof.
  intros Hrs Hi. unfold __next__, bind, get, lift, put, ret, listing. simpl.
  rewrite (lookup_all_take d n _ _ (lookup_all_drop d i _ _ Hrs)).
  destruct (Nat.leb_spec (length ks) i); [lia|reflexivity].
Qed.

Lemma next_on_listing_end d i n ks :
  (length ks <= i)%nat ->
  __next__ (listing d i n ks) = (Raise StopIteration, listing d i n ks).
Proof.
  intros Hi. unfold __next__, bind, get, raise, listing. simpl.
  destruct (Nat.leb_spec (length ks) i); [reflexivity|lia].
Qed.

(** A listing started on keys that all still resolve pages the records
    they resolve to now. *)
Lemma for_pages_on_listing d n ks rs fuel : forall i,
  lookup_all d ks = Ok rs -> (0 < n)%nat -> (length ks - i < fuel)%nat ->
  exists pages j,
    for_pages fuel (listing d i n ks) = Some (Ok pages, listing d j n ks) /\
    paged n (drop i rs) pages.
Proof.
  induction fuel as [|fuel IH]; intros i Hrs Hn Hfuel; [lia|].
  pose proof (lookup_all_length _ _ _ Hrs) as Hlen.
  simpl. destruct (Nat.le_gt_cases (length ks) i) as [Hge|Hlt].
  - rewrite next_on_listing_end by exact Hge. exists [], i. split; [reflexivity|].
    rewrite drop_ge by lia. constructor.
  - rewrite (next_on_listing d i n ks rs Hrs Hlt).
    destruct (IH (i + n)%nat Hrs Hn) as (pages & j & -> & Hp); [lia|].
    exists (take n (drop i rs) :: pages), j. split; [reflexivity|].
    constructor.
    + intros Hnil. apply drop_nil_inv in Hnil. lia.
    + rewrite drop_drop. exact Hp.
Qed.

Lemma paged_count {A} n (l : list A) pages :
  (0 < n)%nat -> paged n l pages -> length pages = ((length l + n - 1) / n)%nat.
Proof.
  intros Hn. induction 1 as [|l pages Hl _ IH].
  - simpl. symmetry. apply Nat.div_small. lia.
  - simpl. rewrite IH, length_drop.
    assert (Hlen : (1 <= length l)%nat) by (destruct l; [congruence|simpl; lia]).
    replace (length l + n - 1)%nat with ((length l - 1) + 1 * n)%nat by lia.
    rewrite Nat.div_add by lia.
    destruct (Nat.le_gt_cases n (length l)) as [Hge|Hlt].
    + replace (length l - n + n - 1)%nat with (length l - 1)%nat by lia. lia.
    + replace (length l - n + n - 1)%nat with (n - 1)%nat by lia.
      rewrite !Nat.div_small by lia. reflexivity.
Qed.

(** X13.  The listing of a book of [n] records has [n / 5] pages rounded up:
    none for an empty book, and no empty page at the end when [n] is a
    multiple of 5. *)
Theorem page_count (b : AddressBook) (fuel : nat) :
  List.NoDup (dict_keys (data b)) -> (length (data b) < fuel)%nat ->
  exists pages final,
    paginate fuel b = Some (Ok pages, final) /\
    length pages = ((length (data b) + 4) / 5)%nat /\
    (data b = [] -> pages = []) /\
    (forall p, In p pages -> p <> []).
Proof.
  intros Hnd Hfuel.
  destruct b as [d st]. simpl in *.
  destruct (for_pages_from d 5 fuel 0%nat Hnd) as (pages & j & Hrun & Hp); [lia..|].
  rewrite drop_0 in Hp.
  pose proof (paged_sizes 5 _ _ (Nat.lt_0_succ 4) Hp) as Hsz.
  exists pages, (cursor d j 5). split; [rewrite paginate_any_cursor; exact Hrun|].
  pose proof (paged_count 5 _ _ (Nat.lt_0_succ 4) Hp) as Hc.
  unfold dict_values in Hc. rewrite length_map in Hc.
  replace (length d + 5 - 1)%nat with (length d + 4)%nat in Hc by lia.
  split; [exact Hc|]. split.
  - intros Hd. rewrite Hd in Hc. simpl in Hc. destruct pages; [reflexivity|discriminate].
  - intros p Hin. rewrite List.Forall_forall in Hsz. specialize (Hsz p Hin).
    destruct p; simpl in Hsz; [lia|discriminate].
Qed.

Lemma page_count_example :
  exists pages final,
    paginate 13 book_of_twelve = Some (Ok pages, final) /\
    length pages = 3%nat /\
    (data book_of_twelve = [] -> pages = []) /\
    (forall p, In p pages -> p <> []).
Proof.
  apply (page_count book_of_twelve 13).
  - vm_compute. repeat (constructor; [simpl; intuition discriminate|]). constructor.
  - vm_compute. lia.
Defined.

Lemma In_dict_keys k v (d : dict) : In (k, v) d -> In k (dict_keys d).
Proof. intros H. apply (in_map fst) in H. exact H. Qed.

Lemma dict_values_set_fresh k v d :
  dict_get k d = None -> dict_values (dict_set k v d) = (dict_values d ++ [v])%list.
Proof.
  induction d as [|[k' v'] d IH]; simpl; [reflexivity|].
  destruct (value_eqb k' k); [discriminate|]. intros H. simpl.
  rewrite IH by exact H. reflexivity.
Qed.

(** X14.  The keys are copied when the listing starts: a record added under
    a new name while the listing is under way is stored in the book but
    is not listed; the pages are those of the records present at the
    start. *)
Theorem listing_ignores_later_additions (r : record) (b : AddressBook) (fuel : nat) :
  List.NoDup (dict_keys (data b)) ->
  dict_get (get_value (name r)) (data b) = None ->
  (length (data b) < fuel)%nat ->
  exists b1 b2 pages final,
    __iter__ b = (Ok tt, b1) /\ add_record r b1 = (Ok tt, b2) /\
    dict_values (data b2) = (dict_values (data b) ++ [r])%list /\
    for_pages fuel b2 = Some (Ok pages, final) /\
    paged 5 (dict_values (data b)) pages /\
    concat pages = dict_values (data b).
Proof.
  intros Hnd Hfresh Hfuel. destruct b as [d st]. simpl in *.
  set (k := get_value (name r)) in *.
  assert (Hres : lookup_all (dict_set k r d) (dict_keys d) = Ok (dict_values d)).
  { apply lookup_all_resolved. intros k' v' Hin.
    rewrite dict_get_set_ne.
    - apply dict_get_In; assumption.
    - intros ->. apply dict_get_None in Hfresh. apply Hfresh.
      apply (In_dict_keys _ _ _ Hin). }
  destruct (for_pages_on_listing (dict_set k r d) 5 (dict_keys d) (dict_values d)
              fuel 0%nat Hres) as (pages & j & Hrun & Hp).
  { lia. }
  { unfold dict_keys. rewrite length_map. lia. }
  rewrite drop_0 in Hp.
  exists (cursor d 0 5), (listing (dict_set k r d) 0 5 (dict_keys d)), pages,
         (listing (dict_set k r d) j 5 (dict_keys d)).
  split; [reflexivity|]. split; [reflexivity|]. split.
  { simpl. apply dict_values_set_fresh, Hfresh. }
  split; [exact Hrun|]. split; [exact Hp|]. apply (paged_concat _ _ _ Hp).
Qed.

Lemma listing_ignores_later_additions_example :
  exists b1 b2 pages final,
    __iter__ small_book = (Ok tt, b1) /\
    add_record (bob_with "1111111111") b1 = (Ok tt, b2) /\
    dict_values (data b2) = [alice; carol_no_phone; bob_with "1111111111"] /\
    for_pages 3 b2 = Some (Ok pages, final) /\
    paged 5 [alice; carol_no_phone] pages /\
    concat pages = [alice; carol_no_phone].
Proof.
  apply (listing_ignores_later_additions (bob_with "1111111111") small_book 3).
  - vm_compute. repeat (constructor; [simpl; intuition discriminate|]). constructor.
  - reflexivity.
  - vm_compute. lia.
Defined.

Lemma next_on_listing_missing d i n ks :
  (i < length ks)%nat ->
  (exists k, In k (take n (drop i ks)) /\ dict_get k d = None) ->
  __next__ (listing d i n ks) = (Raise KeyError, listing d i n ks).
Proof.
  intros Hi Hmiss. unfold __next__, bind, get, lift, put, ret, raise, listing. simpl.
  rewrite (lookup_all_missing d _ Hmiss).
  destruct (Nat.leb_spec (length ks) i); [lia|reflexivity].
Qed.

(** X15.  Removing, while a listing is under way, a record whose key is on
    the page to come makes [__next__] raise [KeyError]; the cursor does
    not advance, so the loop ends there with [KeyError] and every later
    call raises it again. *)
Theorem listing_breaks_on_removed_key (k : value) (b : AddressBook) :
  List.NoDup (dict_keys (data b)) ->
  In k (take 5 (dict_keys (data b))) ->
  exists b1 b2,
    __iter__ b = (Ok tt, b1) /\ remove_record k b1 = (Ok tt, b2) /\
    __next__ b2 = (Raise KeyError, b2) /\
    forall fuel, for_pages (S fuel) b2 = Some (Raise KeyError, b2).
Proof.
  intros Hnd Hk. destruct b as [d st]. simpl in *.
  assert (Hin : In k (dict_keys d)).
  { apply list_elem_of_In. apply list_elem_of_In in Hk.
    apply (subseteq_take 5 (dict_keys d)), Hk. }
  assert (Hmem : dict_mem k d = true).
  { unfold dict_mem. destruct (dict_get k d) eqn:Hg; [reflexivity|].
    apply dict_get_None in Hg. contradiction. }
  exists (cursor d 0 5), (listing (dict_del k d) 0 5 (dict_keys d)).
  split; [reflexivity|]. split.
  { unfold remove_record, bind, get, put, ret. simpl. rewrite Hmem. reflexivity. }
  assert (Hnext : __next__ (listing (dict_del k d) 0 5 (dict_keys d))
                  = (Raise KeyError, listing (dict_del k d) 0 5 (dict_keys d))).
  { apply next_on_listing_missing.
    - destruct (dict_keys d); [contradiction|simpl; lia].
    - exists k. split; [exact Hk|]. apply dict_get_del_eq, Hnd. }
  split; [exact Hnext|]. intros fuel. simpl. rewrite Hnext. reflexivity.
Qed.

Lemma listing_breaks_on_removed_key_example :
  exists b1 b2,
    __iter__ small_book = (Ok tt, b1) /\
    remove_record (VStr "Carol") b1 = (Ok tt, b2) /\
    __next__ b2 = (Raise KeyError, b2) /\
    forall fuel, for_pages (S fuel) b2 = Some (Raise KeyError, b2).
Proof.
  apply (listing_breaks_on_removed_key (VStr "Carol") small_book).
  - vm_compute. repeat (constructor; [simpl; intuition discriminate|]). constructor.
  - simpl. auto.
Defined.

(** ** Files *)

Section Files.

Context {Blob : Type}.
Variable pickle_dumps : dict -> Blob.
Variable pickle_loads : Blob -> option dict.

(** X16.  [load_from_file] never writes; a missing file empties the book
    without an error, whatever the book held; bytes [pickle] cannot read
    raise and leave the book as it was. *)
Theorem load_from_file_outcomes (filename : string) (self : AddressBook)
    (fs : FileSystem Blob) :
  let out := load_from_file Blob pickle_loads filename (self, fs) in
  snd (snd out) = fs /\
  iter_state (fst (snd out)) = iter_state self /\
  (files fs !! filename = None -> out = (Ok tt, (set_data [] self, fs))) /\
  (forall blob, files fs !! filename = Some blob -> pickle_loads blob = None ->
                out = (Raise UnpicklingError, (self, fs))) /\
  (forall blob d, files fs !! filename = Some blob -> pickle_loads blob = Some d ->
                  out = (Ok tt, (set_data d self, fs))).
Proof.
  cbv zeta. unfold load_from_file, read_pickle, bind, get, put, raise. simpl.
  destruct (files fs !! filename) as [blob|]; [destruct (pickle_loads blob) as [d|] eqn:Hl|];
    simpl; (split; [reflexivity|]); (split; [reflexivity|]).
  - split; [discriminate|]. split.
    + intros blob' [= <-] H. congruence.
    + intros blob' d' [= <-] H. congruence.
  - split; [discriminate|]. split.
    + intros blob' [= <-] H. reflexivity.
    + intros blob' d' [= <-] H. congruence.
  - split; [reflexivity|]. split; discriminate.
Qed.

(** X17.  [save_to_file] leaves the book and every other file as they were;
    on a path that cannot be opened it raises [OSError] and writes
    nothing. *)
Theorem save_touches_one_file (filename other : string) (self : AddressBook)
    (fs : FileSystem Blob) :
  other <> filename ->
  let out := save_to_file Blob pickle_dumps filename (self, fs) in
  fst (snd out) = self /\
  files (snd (snd out)) !! other = files fs !! other /\
  (writable fs filename = true ->
   fst out = Ok tt /\ files (snd (snd out)) !! filename = Some (pickle_dumps (data self))) /\
  (writable fs filename = false -> out = (Raise OSError, (self, fs))).
Proof.
  intros Hne. cbv zeta. unfold save_to_file, bind, get, put, raise. simpl.
  destruct (writable fs filename); simpl.
  - split; [reflexivity|]. split; [apply lookup_insert_ne; congruence|].
    split; [|discriminate]. intros _. split; [reflexivity|apply lookup_insert_eq].
  - split; [reflexivity|]. split; [reflexivity|]. split; [discriminate|reflexivity].
Qed.

Hypothesis pickle_roundtrip : forall d, pickle_loads (pickle_dumps d) = Some d.

(** X18.  A load reads the book last saved at its path: a second save to the
    same path replaces the first, and a save to another path in between
    does not disturb it. *)
Theorem load_reads_last_save (p q : string) (b1 b2 reader : AddressBook)
    (fs : FileSystem Blob) :
  writable fs p = true -> writable fs q = true ->
  exists fs1 fs2 loaded,
    save_to_file Blob pickle_dumps p (b1, fs) = (Ok tt, (b1, fs1)) /\
    save_to_file Blob pickle_dumps q (b2, fs1) = (Ok tt, (b2, fs2)) /\
    load_from_file Blob pickle_loads p (reader, fs2) = (Ok tt, (loaded, fs2)) /\
    data loaded = if String.eqb p q then data b2 else data b1.
Proof.
  intros Hp Hq.
  exists {| files := <[p := pickle_dumps (data b1)]> (files fs); writable := writable fs |},
         {| files := <[q := pickle_dumps (data b2)]>
                       (<[p := pickle_dumps (data b1)]> (files fs));
            writable := writable fs |},
         (set_data (if String.eqb p q then data b2 else data b1) reader).
  split; [|split; [|split]].
  - unfold save_to_file, bind, get, put. simpl. rewrite Hp. reflexivity.
  - unfold save_to_file, bind, get, put. simpl. rewrite Hq. reflexivity.
  - unfold load_from_file, read_pickle, bind, get, put. simpl.
    destruct (String.eqb_spec p q) as [->|Hne].
    + rewrite lookup_insert_eq, pickle_roundtrip. reflexivity.
    + rewrite lookup_insert_ne by congruence.
      rewrite lookup_insert_eq, pickle_roundtrip. reflexivity.
  - reflexivity.
Qed.

End Files.

Lemma save_touches_one_file_example :
  files (snd (snd (save_to_file dict id "a.pkl" (small_book, empty_disk)))) !! "b.pkl"
  = None.
Proof.
  apply (proj1 (proj2 (save_touches_one_file id "a.pkl" "b.pkl" small_book empty_disk
                         ltac:(discriminate)))).
Defined.

Lemma load_from_file_outcomes_example :
  load_from_file dict Some "address_book.pkl" (small_book, empty_disk)
  = (Ok tt, (set_data [] small_book, empty_disk)).
Proof.
  apply (proj1 (proj2 (proj2 (load_from_file_outcomes Some "address_book.pkl"
                                small_book empty_disk)))).
  reflexivity.
Defined.

Lemma load_reads_last_save_example :
  exists fs1 fs2 loaded,
    save_to_file dict id "a.pkl" (small_book, empty_disk) = (Ok tt, (small_book, fs1)) /\
    save_to_file dict id "b.pkl" (book_of_twelve, fs1) = (Ok tt, (book_of_twelve, fs2)) /\
    load_from_file dict Some "a.pkl" (AddressBook_init, fs2) = (Ok tt, (loaded, fs2)) /\
    data loaded = data small_book.
Proof.
  apply (load_reads_last_save id Some (fun d => eq_refl) "a.pkl" "b.pkl"
           small_book book_of_twelve AddressBook_init empty_disk); reflexivity.
Defined.

(** ** The command loop *)

Lemma next_on_listing_cases d i n ks :
  ((length ks <= i)%nat /\
   __next__ (listing d i n ks) = (Raise StopIteration, listing d i n ks)) \/
  ((i < length ks)%nat /\
   __next__ (listing d i n ks) = (Raise KeyError, listing d i n ks)) \/
  ((i < length ks)%nat /\ exists rs,
   __next__ (listing d i n ks) = (Ok rs, listing d (i + n) n ks)).
Proof.
  destruct (Nat.le_gt_cases (length ks) i) as [Hge|Hlt].
  - left. split; [exact Hge|]. apply next_on_listing_end, Hge.
  - right. unfold __next__, bind, get, lift, put, ret, raise, listing. simpl.
    destruct (Nat.leb_spec (length ks) i); [lia|].
    destruct (lookup_all d (take n (drop i ks))) as [rs|e] eqn:Hl.
    + right. split; [exact Hlt|]. exists rs. reflexivity.
    + left. split; [exact Hlt|].
      assert (e = KeyError) as ->; [|reflexivity].
      clear - Hl. revert Hl. generalize (take n (drop i ks)). intros l.
      induction l as [|k l IH]; simpl; [discriminate|].
      unfold dict_getitem. destruct (dict_get k d); [|intros [= <-]; reflexivity].
      destruct (lookup_all d l); [discriminate|]. intros [= <-]. apply IH. reflexivity.
Qed.

Lemma paged_nonempty {A} n (l : list A) pages :
  paged n l pages -> (pages = [] <-> l = []).
Proof.
  destruct 1 as [|l pages Hl _]; split; intros H; try reflexivity; try discriminate.
  contradiction.
Qed.

Section ProgramProperties.

Context {Blob : Type}.
Variable pickle_dumps : dict -> Blob.
Variable pickle_loads : Blob -> option dict.

(** The listing loop ends within one call per remaining key and one
    more, and touches neither the files nor the dictionary. *)
Lemma show_pages_ends fuel : forall page i d ks (s : Session Blob),
  book s = listing d i 5 ks -> (length ks - i < fuel)%nat ->
  exists res s', show_pages fuel page s = Some (res, s') /\
                 disk s' = disk s /\ data (book s') = d.
Proof.
  induction fuel as [|fuel IH]; intros page i d ks s Hb Hfuel; [lia|].
  simpl. rewrite Hb.
  destruct (next_on_listing_cases d i 5 ks) as [[Hge ->]|[[Hlt ->]|(Hlt & rs & ->)]].
  - eexists _, _. split; [reflexivity|]. split; reflexivity.
  - eexists _, _. split; [reflexivity|]. split; reflexivity.
  - edestruct (IH (S page) (i + 5)%nat d ks) as (res & s' & Hrun & Hd & Hdata);
      [| |rewrite Hrun; eexists _, _; split; [reflexivity|split; [exact Hd|exact Hdata]]].
    + reflexivity.
    + lia.
Qed.

Lemma show_all_unfold (s : Session Blob) :
  show_all s =
  show_pages (S (length (data (book s)))) 1 (with_book (cursor (data (book s)) 0 5) s).
Proof. reflexivity. Qed.

Lemma show_all_ends (s : Session Blob) :
  exists res s', show_all s = Some (res, s') /\
                 disk s' = disk s /\ data (book s') = data (book s).
Proof.
  rewrite show_all_unfold.
  apply (show_pages_ends _ 1%nat 0%nat (data (book s)) (dict_keys (data (book s)))
           (with_book (cursor (data (book s)) 0 5) s)).
  - reflexivity.
  - unfold dict_keys. rewrite length_map. lia.
Qed.

Lemma show_pages_prints fuel : forall page i d rs (s : Session Blob),
  book s = listing d i 5 (dict_keys d) ->
  lookup_all d (dict_keys d) = Ok rs ->
  i = (5 * (page - 1))%nat -> (1 <= page)%nat ->
  (length (dict_keys d) - i < fuel)%nat ->
  exists pages j,
    show_pages fuel page s =
      Some (Ok tt, {| book := listing d j 5 (dict_keys d); disk := disk s;
                      screen := screen s ++ render_pages page pages |}) /\
    paged 5 (drop i rs) pages.
Proof.
  induction fuel as [|fuel IH]; intros page i d rs s Hb Hrs Hi Hpage Hfuel; [lia|].
  pose proof (lookup_all_length _ _ _ Hrs) as Hlen.
  simpl. rewrite Hb.
  destruct (Nat.le_gt_cases (length (dict_keys d)) i) as [Hge|Hlt].
  - rewrite next_on_listing_end by exact Hge.
    exists [], i. simpl. rewrite app_nil_r. split.
    + reflexivity.
    + rewrite drop_ge by lia. constructor.
  - rewrite (next_on_listing d i 5 _ rs Hrs Hlt).
    match goal with |- context [show_pages fuel (S page) ?s1] =>
      destruct (IH (S page) (i + 5)%nat d rs s1 eq_refl Hrs ltac:(lia) ltac:(lia)
                  ltac:(lia)) as (pages & j & Hrun & Hp)
    end.
    rewrite Hrun.
    exists (take 5 (drop i rs) :: pages), j. split.
    + assert (Hmore : (page * 5 <? length d)%nat =
                      match pages with [] => false | _ :: _ => true end).
      { pose proof (paged_nonempty _ _ _ Hp) as Hne.
        unfold dict_keys in Hlen. rewrite length_map in Hlen.
        destruct pages as [|p ps].
        - apply Nat.ltb_ge. destruct Hne as [Hne _].
          specialize (Hne eq_refl). apply drop_nil_inv in Hne. lia.
        - apply Nat.ltb_lt.
          destruct (Nat.le_gt_cases (length d) (page * 5)) as [Hle|]; [|assumption].
          exfalso. destruct Hne as [_ Hne].
          assert (Hnil : drop (i + 5) rs = []) by (apply drop_ge; lia).
          specialize (Hne Hnil). discriminate. }
      simpl. rewrite Hmore. do 3 f_equal.
      rewrite <- !app_assoc. simpl. do 2 f_equal.
      destruct pages; simpl; rewrite <- ?app_assoc; reflexivity.
    + constructor.
      * intros Hnil. apply drop_nil_inv in Hnil. lia.
      * rewrite drop_drop. exact Hp.
Qed.

(** X19.  [show all] on a book with distinct keys prints, after what is
    already on the screen, every record once and in key order, five to a
    page under the headers [Page 1:], [Page 2:], ..., with the hint that
    more pages follow after each page but the last, and nothing at all
    for an empty book; it changes neither the records nor the files. *)
Theorem show_all_prints_every_page (s : Session Blob) :
  List.NoDup (dict_keys (data (book s))) ->
  exists pages s',
    show_all s = Some (Ok tt, s') /\
    paged 5 (dict_values (data (book s))) pages /\
    concat pages = dict_values (data (book s)) /\
    screen s' = (screen s ++ render_pages 1 pages)%list /\
    data (book s') = data (book s) /\ disk s' = disk s.
Proof.
  intros Hnd. rewrite show_all_unfold.
  assert (Hrs : lookup_all (data (book s)) (dict_keys (data (book s)))
                = Ok (dict_values (data (book s)))).
  { apply lookup_all_resolved. intros k v Hin. apply dict_get_In; assumption. }
  edestruct (show_pages_prints (S (length (data (book s)))) 1 0 (data (book s))
               (dict_values (data (book s)))
               (with_book (cursor (data (book s)) 0 5) s))
    as (pages & j & Hrun & Hp); [reflexivity|exact Hrs|reflexivity|lia| |].
  { unfold dict_keys. rewrite length_map. lia. }
  rewrite drop_0 in Hp.
  exists pages. eexists. split; [exact Hrun|]. split; [exact Hp|].
  split; [apply (paged_concat _ _ _ Hp)|]. simpl. auto.
Qed.

End ProgramProperties.

Lemma show_all_prints_every_page_example :
  exists pages s',
    show_all (mkSession small_book (@empty_disk dict) []) = Some (Ok tt, s') /\
    paged 5 [alice; carol_no_phone] pages /\
    concat pages = [alice; carol_no_phone] /\
    screen s' = render_pages 1 pages /\
    data (book s') = data small_book /\ disk s' = empty_disk.
Proof.
  apply (show_all_prints_every_page (mkSession small_book (@empty_disk dict) [])).
  vm_compute. repeat (constructor; [simpl; intuition discriminate|]). constructor.
Defined.

Lemma find_records_by_name_eq q b :
  find_records_by_name q b = (comprehension (name_matches q) (dict_values (data b)), b).
Proof. reflexivity. Qed.

Lemma find_records_by_phone_eq q b :
  find_records_by_phone q b = (Ok (List.filter (phone_matches q) (dict_values (data b))), b).
Proof. reflexivity. Qed.

Section LoopProperties.

Context {Blob : Type}.
Variable pickle_dumps : dict -> Blob.
Variable pickle_loads : Blob -> option dict.

Lemma save_to_file_eq filename (b : AddressBook) (fs : FileSystem Blob) :
  save_to_file Blob pickle_dumps filename (b, fs) =
  if writable fs filename
  then (Ok tt, (b, {| files := <[filename := pickle_dumps (data b)]> (files fs);
                      writable := writable fs |}))
  else (Raise OSError, (b, fs)).
Proof.
  unfold save_to_file, bind, get, put, raise. simpl.
  destruct (writable fs filename); reflexivity.
Qed.

Lemma command_loop_nil (s : Session Blob) :
  command_loop Blob pickle_dumps [] s =
  Some (UncaughtEOF, emit [Prompt "Enter a command: "] s).
Proof. reflexivity. Qed.

Lemma command_loop_cons line rest (s : Session Blob) :
  command_loop Blob pickle_dumps (line :: rest) s =
    let s := emit [Prompt "Enter a command: "] s in
    let command := PyStr.lower (strip line) in
    if String.eqb command "exit" then
      match save_to_file Blob pickle_dumps "address_book.pkl" (book s, disk s) with
      | (Ok _, (b, fs)) =>
          Some (Finished, {| book := b; disk := fs; screen := screen s |})
      | (Raise e, (b, fs)) =>
          Some (Uncaught e, {| book := b; disk := fs; screen := screen s |})
      end
    else if String.eqb command "add" then
      let s := emit [Prompt "Enter a name: "] s in
      match rest with
      | [] => Some (UncaughtEOF, s)
      | name :: rest =>
        let s := emit [Prompt "Enter a birthday (optional, format YYYY-MM-DD): "] s in
        match rest with
        | [] => Some (UncaughtEOF, s)
        | birthday :: rest =>
          match Record_init (VStr name) VNone (VStr birthday) with
          | Raise e => Some (Uncaught e, s)
          | Ok new_record => phone_loop Blob pickle_dumps rest new_record s
          end
        end
      end
    else if String.eqb command "remove" then
      let s := emit [Prompt "Enter a name to remove: "] s in
      match rest with
      | [] => Some (UncaughtEOF, s)
      | name :: rest => command_loop Blob pickle_dumps rest s
      end
    else if String.eqb command "find by name" then
      let s := emit [Prompt "Enter a name to find: "] s in
      match rest with
      | [] => Some (UncaughtEOF, s)
      | name :: rest =>
        match find_records_by_name (strip name) (book s) with
        | (Raise e, b) => Some (Uncaught e, with_book b s)
        | (Ok found_records, b) =>
            command_loop Blob pickle_dumps rest (emit (report found_records) (with_book b s))
        end
      end
    else if String.eqb command "find by phone" then
      let s := emit [Prompt "Enter a phone to find: "] s in
      match rest with
      | [] => Some (UncaughtEOF, s)
      | phone :: rest =>
        match find_records_by_phone (strip phone) (book s) with
        | (Raise e, b) => Some (Uncaught e, with_book b s)
        | (Ok found_records, b) =>
            command_loop Blob pickle_dumps rest (emit (report found_records) (with_book b s))
        end
      end
    else if String.eqb command "show all" then
      match show_all s with
      | None => None
      | Some (Raise e, s) => Some (Uncaught e, s)
      | Some (Ok _, s) => command_loop Blob pickle_dumps rest s
      end
    else if String.eqb command "next" then command_loop Blob pickle_dumps rest s
    else command_loop Blob pickle_dumps rest (emit [Print "Invalid command. Try again."] s).
Proof. reflexivity. Qed.

Lemma phone_loop_nil r (s : Session Blob) :
  phone_loop Blob pickle_dumps [] r s =
  Some (UncaughtEOF, emit [Prompt "Enter a phone (leave empty to finish): "] s).
Proof. reflexivity. Qed.

Lemma phone_loop_cons line rest r (s : Session Blob) :
  phone_loop Blob pickle_dumps (line :: rest) r s =
  let s1 := emit [Prompt "Enter a phone (leave empty to finish): "] s in
  if negb (PyStr.nonempty (strip line)) then
    command_loop Blob pickle_dumps rest
      (with_book (set_data (dict_set (get_value (name r)) r (data (book s1))) (book s1)) s1)
  else
    phone_loop Blob pickle_dumps rest
      (set_phones (phones r ++ [{| _value := VStr (strip line) |}]) r) s1.
Proof. simpl. destruct (PyStr.nonempty (strip line)); reflexivity. Qed.

(** Both loops end on every input; they write to the files only by
    [exit]; and the command loop leaves the dictionary as it is when no
    line is the [add] command. *)
Lemma loops_run n : forall stdin, (length stdin <= n)%nat ->
  (forall s : Session Blob, exists e s',
     command_loop Blob pickle_dumps stdin s = Some (e, s') /\
     disk_after pickle_dumps e s s' /\
     (Forall not_add stdin -> data (book s') = data (book s))) /\
  (forall r (s : Session Blob), exists e s',
     phone_loop Blob pickle_dumps stdin r s = Some (e, s') /\
     disk_after pickle_dumps e s s').
Proof.
  induction n as [|n IH]; intros stdin Hlen.
  { destruct stdin; [|simpl in Hlen; lia]. split.
    - intros s. eexists _, _. split; [apply command_loop_nil|]. split; reflexivity.
    - intros r s. eexists _, _. split; [apply phone_loop_nil|]. reflexivity. }
  destruct stdin as [|line rest].
  { split.
    - intros s. eexists _, _. split; [apply command_loop_nil|]. split; reflexivity.
    - intros r s. eexists _, _. split; [apply phone_loop_nil|]. reflexivity. }
  simpl in Hlen. assert (Hrest : (length rest <= n)%nat) by lia.
  assert (Hcmd : forall rest' (s0 s1 : Session Blob),
            (length rest' <= n)%nat -> disk s1 = disk s0 ->
            (Forall not_add (line :: rest) -> Forall not_add rest') ->
            data (book s1) = data (book s0) ->
            exists e s',
              command_loop Blob pickle_dumps rest' s1 = Some (e, s') /\
              disk_after pickle_dumps e s0 s' /\
              (Forall not_add (line :: rest) -> data (book s') = data (book s0))).
  { intros rest' s0 s1 Hl Hd HF Hb.
    destruct (proj1 (IH rest' Hl) s1) as (e & s' & Hrun & Hdisk & Hdata).
    exists e, s'. split; [exact Hrun|]. split.
    - unfold disk_after in *. rewrite <- Hd. exact Hdisk.
    - intros H. rewrite (Hdata (HF H)). exact Hb. }
  assert (Htail : Forall not_add (line :: rest) -> Forall not_add rest).
  { intros H. inversion H; assumption. }
  assert (Htail2 : forall x rest', rest = x :: rest' ->
                     Forall not_add (line :: rest) -> Forall not_add rest').
  { intros x rest' -> H. inversion H as [|? ? _ H']. inversion H'; assumption. }
  split.
  - intros s. rewrite command_loop_cons. cbv zeta.
    destruct (String.eqb (PyStr.lower (strip line)) "exit") eqn:Hexit.
    { rewrite save_to_file_eq. simpl.
      destruct (writable (disk s) "address_book.pkl");
        eexists _, _; (split; [reflexivity|]); split; reflexivity. }
    destruct (String.eqb (PyStr.lower (strip line)) "add") eqn:Hadd.
    { assert (Hno : Forall not_add (line :: rest) -> False).
      { intros H. inversion H as [|? ? Hl _]. apply Hl. apply String.eqb_eq, Hadd. }
      destruct rest as [|nm [|bd rest2]].
      - eexists _, _. split; [reflexivity|]. split; [reflexivity|]. intros H. destruct (Hno H).
      - eexists _, _. split; [reflexivity|]. split; [reflexivity|]. intros H. destruct (Hno H).
      - simpl in Hrest.
        cbv [Record_init Name_init Birthday_init Field_init truthy].
        match goal with |- context [phone_loop _ _ _ ?r ?s1] =>
          destruct (proj2 (IH rest2 ltac:(lia)) r s1) as (e & s' & Hrun & Hdisk)
        end.
        exists e, s'. split; [exact Hrun|]. split; [exact Hdisk|].
        intros H. destruct (Hno H). }
    destruct (String.eqb (PyStr.lower (strip line)) "remove") eqn:Hrem.
    { destruct rest as [|nm rest1].
      - eexists _, _. split; [reflexivity|]. split; reflexivity.
      - simpl in Hrest. apply Hcmd; [lia|reflexivity|apply (Htail2 nm); reflexivity|reflexivity]. }
    destruct (String.eqb (PyStr.lower (strip line)) "find by name") eqn:Hfn.
    { destruct rest as [|nm rest1].
      - eexists _, _. split; [reflexivity|]. split; reflexivity.
      - simpl in Hrest. rewrite find_records_by_name_eq.
        destruct (comprehension _ _).
        + apply Hcmd; [lia|reflexivity|apply (Htail2 nm); reflexivity|reflexivity].
        + eexists _, _. split; [reflexivity|]. split; reflexivity. }
    destruct (String.eqb (PyStr.lower (strip line)) "find by phone") eqn:Hfp.
    { destruct rest as [|nm rest1].
      - eexists _, _. split; [reflexivity|]. split; reflexivity.
      - simpl in Hrest. rewrite find_records_by_phone_eq.
        apply Hcmd; [lia|reflexivity|apply (Htail2 nm); reflexivity|reflexivity]. }
    destruct (String.eqb (PyStr.lower (strip line)) "show all") eqn:Hsa.
    { match goal with |- context [show_all ?s1] =>
        destruct (show_all_ends s1) as (res & s2 & Hshow & Hd2 & Hb2)
      end.
      rewrite Hshow. destruct res as [[]|e].
      - apply Hcmd; [exact Hrest|exact Hd2|exact Htail|exact Hb2].
      - eexists _, _. split; [reflexivity|]. split; [exact Hd2|]. intros _. exact Hb2. }
    destruct (String.eqb (PyStr.lower (strip line)) "next") eqn:Hnx.
    { apply Hcmd; [exact Hrest|reflexivity|exact Htail|reflexivity]. }
    apply Hcmd; [exact Hrest|reflexivity|exact Htail|reflexivity].
  - intros r s. rewrite phone_loop_cons. cbv zeta.
    destruct (negb (PyStr.nonempty (strip line))).
    + match goal with |- context [command_loop _ _ rest ?s1] =>
        destruct (proj1 (IH rest Hrest) s1) as (e & s' & Hrun & Hdisk & _)
      end.
      exists e, s'. split; [exact Hrun|exact Hdisk].
    + match goal with |- context [phone_loop _ _ rest ?r1 ?s1] =>
        destruct (proj2 (IH rest Hrest) r1 s1) as (e & s' & Hrun & Hdisk)
      end.
      exists e, s'. split; [exact Hrun|exact Hdisk].
Qed.

End LoopProperties.

Lemma load_keeps_files {Blob} (pickle_loads : Blob -> option dict) filename
    (self : AddressBook) (fs : FileSystem Blob) :
  snd (snd (load_from_file Blob pickle_loads filename (self, fs))) = fs.
Proof.
  unfold load_from_file, read_pickle, bind, get, put, raise. simpl.
  destruct (files fs !! filename) as [blob|]; [destruct (pickle_loads blob)|]; reflexivity.
Qed.

Section Runs.

Context {Blob : Type}.
Variable pickle_dumps : dict -> Blob.
Variable pickle_loads : Blob -> option dict.

Lemma run_writes_only_on_exit_aux (stdin : list string) (fs : FileSystem Blob) :
  exists e s',
    main Blob pickle_dumps pickle_loads stdin fs = Some (e, s') /\
    match e with
    | Finished =>
        disk s' =
        {| files := <["address_book.pkl" := pickle_dumps (data (book s'))]> (files fs);
           writable := writable fs |}
    | _ => disk s' = fs
    end.
Proof.
  unfold main.
  pose proof (load_keeps_files pickle_loads "address_book.pkl" AddressBook_init fs) as Hfs.
  destruct (load_from_file Blob pickle_loads "address_book.pkl" (AddressBook_init, fs))
    as [[[]|e] [b fs']]; simpl in Hfs; subst fs'.
  - destruct (proj1 (loops_run pickle_dumps (length stdin) stdin (Nat.le_refl _))
                {| book := b; disk := fs; screen := [] |}) as (e & s' & Hrun & Hdisk & _).
    exists e, s'. split; [exact Hrun|]. destruct e; exact Hdisk.
  - eexists _, _. split; [reflexivity|]. reflexivity.
Qed.

(** X20.  Every run of the program on a finite input ends: by [exit], by an
    exception that escapes, or by [EOFError] when the input is used up.
    Only a run that ends by [exit] writes, and it writes the dump of its
    final book to [address_book.pkl] and nothing else; after any other
    ending the files are as they were, so what was added is lost. *)
Theorem run_writes_only_on_exit (stdin : list string) (fs : FileSystem Blob) :
  exists e s',
    main Blob pickle_dumps pickle_loads stdin fs = Some (e, s') /\
    match e with
    | Finished =>
        disk s' =
        {| files := <["address_book.pkl" := pickle_dumps (data (book s'))]> (files fs);
           writable := writable fs |}
    | _ => disk s' = fs
    end.
Proof. exact (run_writes_only_on_exit_aux stdin fs). Qed.

(** X21.  Whatever the commands, as long as no line is read as [add] the
    records of the book at the end are those at the start: [remove] in
    particular reads a name and removes nothing. *)
Theorem book_changes_only_by_add (stdin : list string) (s : Session Blob) :
  Forall not_add stdin ->
  exists e s', command_loop Blob pickle_dumps stdin s = Some (e, s') /\
               data (book s') = data (book s).
Proof.
  intros H.
  destruct (proj1 (loops_run pickle_dumps (length stdin) stdin (Nat.le_refl _)) s)
    as (e & s' & Hrun & _ & Hdata).
  exists e, s'. split; [exact Hrun|apply Hdata, H].
Qed.

Lemma phone_loop_lines rest blank : forall phone_lines r (s : Session Blob),
  Forall (fun l => strip l <> "") phone_lines -> strip blank = "" ->
  phone_loop Blob pickle_dumps (phone_lines ++ blank :: rest) r s =
  command_loop Blob pickle_dumps rest
    {| book :=
         set_data
           (dict_set (get_value (name r))
              (set_phones
                 (phones r ++ map (fun l => {| _value := VStr (strip l) |}) phone_lines) r)
              (data (book s)))
           (book s);
       disk := disk s;
       screen := screen s ++
                 repeat (Prompt "Enter a phone (leave empty to finish): ")
                        (S (length phone_lines)) |}.
Proof.
  induction phone_lines as [|l ls IH]; intros r s HF Hblank.
  - simpl app. rewrite phone_loop_cons. cbv zeta. rewrite Hblank. simpl.
    rewrite app_nil_r. destruct r. reflexivity.
  - inversion HF as [|? ? Hl HF']; subst.
    rewrite <- app_comm_cons, phone_loop_cons. cbv zeta.
    assert (Hne : negb (PyStr.nonempty (strip l)) = false)
      by (destruct (strip l); [congruence|reflexivity]).
    rewrite Hne, IH by assumption. simpl.
    rewrite <- !app_assoc. simpl. reflexivity.
Qed.

(** X22.  The [add] command stores the record under the name as typed, with
    the birthday line as its birthday and, as its phones, every line up
    to the first blank one with the blanks around it stripped: no phone
    and no birthday is validated, and a record of that name is replaced. *)
Theorem add_command_stores_what_is_typed
    (line nm bd blank : string) (phone_lines rest : list string) (s : Session Blob) :
  PyStr.lower (strip line) = "add" ->
  Forall (fun l => strip l <> "") phone_lines -> strip blank = "" ->
  command_loop Blob pickle_dumps (line :: nm :: bd :: phone_lines ++ blank :: rest) s =
  command_loop Blob pickle_dumps rest
    {| book :=
         set_data
           (dict_set (VStr nm)
              {| name := {| _value := VStr nm |};
                 phones := map (fun l => {| _value := VStr (strip l) |}) phone_lines;
                 birthday := {| _value := VStr bd |} |}
              (data (book s)))
           (book s);
       disk := disk s;
       screen := screen s ++
                 [Prompt "Enter a command: "; Prompt "Enter a name: ";
                  Prompt "Enter a birthday (optional, format YYYY-MM-DD): "] ++
                 repeat (Prompt "Enter a phone (leave empty to finish): ")
                        (S (length phone_lines)) |}.
Proof.
  intros Hadd HF Hblank. rewrite command_loop_cons. cbv zeta. rewrite Hadd.
  change (String.eqb "add" "exit") with false.
  change (String.eqb "add" "add") with true. cbv iota.
  cbv [Record_init Name_init Birthday_init Field_init truthy].
  rewrite phone_loop_lines by assumption. simpl.
  rewrite <- !app_assoc. reflexivity.
Qed.

Hypothesis pickle_roundtrip : forall d, pickle_loads (pickle_dumps d) = Some d.

(** X23.  The book a run saved by [exit] is the book of the next run: started
    on the files the first run left, the program goes into its command
    loop with the records the first run ended with. *)
Theorem next_run_starts_from_saved_book
    (stdin stdin2 : list string) (fs : FileSystem Blob) (s1 : Session Blob) :
  main Blob pickle_dumps pickle_loads stdin fs = Some (Finished, s1) ->
  main Blob pickle_dumps pickle_loads stdin2 (disk s1) =
  command_loop Blob pickle_dumps stdin2
    {| book := {| data := data (book s1); iter_state := None |};
       disk := disk s1; screen := [] |}.
Proof.
  intros Hrun.
  destruct (run_writes_only_on_exit_aux stdin fs) as (e & s' & Hrun' & Hdisk).
  rewrite Hrun in Hrun'. injection Hrun' as <- <-.
  unfold main, load_from_file, read_pickle, bind, get, put. simpl.
  rewrite Hdisk. simpl. rewrite lookup_insert_eq, pickle_roundtrip. reflexivity.
Qed.

End Runs.

Lemma edit_phone_all_or_nothing_example :
  snd (edit_phone "1111111111" (VStr "12345") (bob_with "1111111111"))
  = bob_with "1111111111".
Proof.
  apply (proj2 (proj2 (proj2 (edit_phone_all_or_nothing "1111111111" (VStr "12345")
                                (bob_with "1111111111"))))
           (ValueError "Phone must be 10 digits long")).
  reflexivity.
Defined.

Lemma book_changes_only_by_add_example :
  Forall not_add ["remove"; "Alice"; "show all"; " Remove "; "Carol"] /\
  exists e s',
    command_loop dict id ["remove"; "Alice"; "show all"; " Remove "; "Carol"] small_session
      = Some (e, s') /\
    data (book s') = data small_book.
Proof.
  assert (H : Forall not_add ["remove"; "Alice"; "show all"; " Remove "; "Carol"]).
  { repeat constructor; intros H; vm_compute in H; discriminate H. }
  split; [exact H|].
  exact (book_changes_only_by_add id _ small_session H).
Defined.

Lemma add_command_stores_what_is_typed_example :
  command_loop dict id ["ADD "; "Ann"; ""; " 12345 "; "abc"; "  "; "exit"] small_session =
  command_loop dict id ["exit"]
    {| book :=
         set_data
           (dict_set (VStr "Ann")
              {| name := {| _value := VStr "Ann" |};
                 phones := [{| _value := VStr "12345" |}; {| _value := VStr "abc" |}];
                 birthday := {| _value := VStr "" |} |}
              (data small_book))
           small_book;
       disk := empty_disk;
       screen := [Prompt "Enter a command: "; Prompt "Enter a name: ";
                  Prompt "Enter a birthday (optional, format YYYY-MM-DD): ";
                  Prompt "Enter a phone (leave empty to finish): ";
                  Prompt "Enter a phone (leave empty to finish): ";
                  Prompt "Enter a phone (leave empty to finish): "] |}.
Proof.
  apply (add_command_stores_what_is_typed id "ADD " "Ann" "" "  " [" 12345 "; "abc"]
           ["exit"] small_session).
  - reflexivity.
  - repeat constructor; intros H; vm_compute in H; discriminate H.
  - reflexivity.
Defined.

Lemma next_run_starts_from_saved_book_example :
  exists s1,
    main dict id Some add_ann_and_exit empty_disk = Some (Finished, s1) /\
    main dict id Some ["show all"] (disk s1) =
    command_loop dict id ["show all"]
      {| book := {| data := data (book s1); iter_state := None |};
         disk := disk s1; screen := [] |}.
Proof.
  eexists. split.
  - vm_compute. reflexivity.
  - apply (next_run_starts_from_saved_book id Some (fun d => eq_refl)
             add_ann_and_exit ["show all"] empty_disk).
    vm_compute. reflexivity.
Defined.

(** * Searching names beyond the Latin-1 block *)










Example find_nikos_by_part_of_name :
  Wide.find_records_by_name (Wide.of_string "iko") Wide.nikos_book
  = (Ok [Wide.nikos_record], Wide.nikos_book).
Proof. reflexivity. Qed.

